(** * ESG logic of the crypto ESG dashboard (utils/esg_logic.py)

    A shallow embedding of the functions of [utils/esg_logic.py]:
    [compute_weighted_esg], [categorize_esg_score], [merge_price_and_esg],
    [calculate_portfolio_metrics] and [get_esg_insights], together with the
    few pandas operations they call.

    Numbers.  The Python code computes on IEEE doubles.  Here a number
    is an exact rational ([Q]) and a missing cell, NaN (what
    [pd.to_numeric(..., errors='coerce')] produces for unparsable text),
    is the extra value [NaN] of [float].  The operations [fmul],
    [series_sum] and [np_div] are the exact ones: they do not round, a
    result never overflows to an infinity, a column of integers never
    wraps around, and the order in which a sum is taken plays no part.
    The properties below that rest on the exact value of a product, a sum
    or a quotient are properties of this idealisation.  Where rounding
    decides whether a property holds, the calculator is given a second
    time, with rounded operations ([calculate_portfolio_metrics_rounded]). *)

From Stdlib Require Import QArith Qround Qminmax Qabs Lqa Ascii.
From stdpp Require Import base list strings gmap pretty sorting.

Local Open Scope Q_scope.

(** ** Numbers with a missing value *)

Inductive float : Type :=
  | NaN : float
  | Fin : Q -> float.

(** [a * b] on a column cell: NaN is absorbing. *)
Definition fmul (a b : float) : float :=
  match a, b with
  | Fin x, Fin y => Fin (x * y)
  | _, _ => NaN
  end.

(** [Series.sum()] with the default [skipna=True]: missing cells are
    left out, the sum of nothing is 0. *)
Fixpoint series_sum (xs : list float) : Q :=
  match xs with
  | [] => 0
  | NaN :: rest => series_sum rest
  | Fin x :: rest => x + series_sum rest
  end.

(** [a / b] on numpy scalars.  A zero divisor does not raise: the result
    is a non-finite value, which the model folds into [NaN]. *)
Definition np_div (a b : Q) : float :=
  if Qeq_bool b 0 then NaN else Fin (a / b).

(** ** categorize_esg_score *)

Definition categorize_esg_score (score : Q) : string :=
  if Qle_bool 80 score then "A+ (Excellent)"
  else if Qle_bool 70 score then "A (Very Good)"
  else if Qle_bool 60 score then "B+ (Good)"
  else if Qle_bool 50 score then "B (Fair)"
  else if Qle_bool 40 score then "C+ (Below Average)"
  else "C (Poor)".

(** ** Python values, exceptions *)

(** A cell of the [last_price] column as the price feed delivers it:
    text, a number, or nothing. *)
Inductive pyval : Type :=
  | PyStr : string -> pyval
  | PyNum : Q -> pyval
  | PyNone : pyval.

(** A raised exception, identified by its class name. *)
Record exception : Type := Exception { exc_class : string; exc_msg : string }.

Inductive result (A : Type) : Type :=
  | Ok : A -> result A
  | Raise : exception -> result A.
Arguments Ok {A} _.
Arguments Raise {A} _.

(** Sequencing: the first exception raised ends the computation. *)
Definition bind {A B : Type} (m : result A) (k : A -> result B) : result B :=
  match m with
  | Ok a => k a
  | Raise e => Raise e
  end.

Notation "'let*' x ':=' m 'in' k" := (bind m (fun x => k))
  (at level 10, x name, m at level 100, k at level 200).

(** Comparisons of rationals are decidable. *)
#[global] Instance Qlt_decision (x y : Q) : Decision (x < y).
Proof.
  destruct (Qlt_le_dec x y) as [H | H]; [left; exact H | right].
  apply Qle_not_lt; exact H.
Defined.

#[global] Instance Qle_decision (x y : Q) : Decision (x <= y).
Proof.
  destruct (Qlt_le_dec y x) as [H | H]; [right | left; exact H].
  apply Qlt_not_le; exact H.
Defined.

(** ** Tables *)

Module Price.
(** A row of the price table; [V] is the type of the [last_price]
    column ([pyval] as fetched, [float] once coerced). *)
Record t (V : Type) : Type := mk { market : string; last_price : V }.
Arguments mk {V} _ _.
Arguments market {V} _.
Arguments last_price {V} _.
End Price.

Module Esg.
(** A row of the ESG reference table. *)
Record t : Type :=
  mk { market : string; name : string; esg_e : Q; esg_s : Q; esg_g : Q }.
End Esg.

(** The joined row: the columns of the price table followed by those of
    the ESG table. *)
Record JoinedRow : Type := mkJoined {
  market : string;
  last_price : float;
  name : string;
  esg_e : Q;
  esg_s : Q;
  esg_g : Q
}.

(** ... with the column "ESG Score" added, *)
Record ScoredRow : Type := mkScored {
  scored_base :> JoinedRow;
  ESG_Score : Q
}.

(** ... with the column "ESG Rating" added, *)
Record MergedAsset : Type := mkMerged {
  merged_base :> ScoredRow;
  ESG_Rating : string
}.

(** ... with the columns "Holding" and "Value (USD)" added. *)
Record ValuedAsset : Type := mkValued {
  valued_base :> MergedAsset;
  Holding : Q;
  Value_USD : float
}.

Record PortfolioMetrics : Type := mkMetrics {
  total_value : Q;
  weighted_esg : float;
  weighted_environmental : float;
  weighted_social : float;
  weighted_governance : float;
  num_holdings : nat
}.

(** ** pandas operations used by the code *)

(** [left.merge(right, on=key, how="inner")]: every left row, in order,
    paired with each right row of the same key, in order.  (With repeated
    keys some pandas versions group the pairs by key instead; the rows
    produced are the same.) *)
Definition df_merge_inner {A B : Type} (kl : A -> string) (kr : B -> string)
    (left : list A) (right : list B) : list (A * B) :=
  l ← left; (fun r => (l, r)) <$> filter (fun r => kl l = kr r) right.

(** [Series.idxmax()] on a column without missing values: the position
    of the first occurrence of the maximum; ValueError on an empty
    column. *)
Fixpoint argmax_from (best_i : nat) (best : Q) (i : nat) (xs : list Q) : nat :=
  match xs with
  | [] => best_i
  | x :: rest =>
      if Qle_bool x best then argmax_from best_i best (S i) rest
      else argmax_from i x (S i) rest
  end.

Fixpoint argmin_from (best_i : nat) (best : Q) (i : nat) (xs : list Q) : nat :=
  match xs with
  | [] => best_i
  | x :: rest =>
      if Qle_bool best x then argmin_from best_i best (S i) rest
      else argmin_from i x (S i) rest
  end.

Definition idxmax (col : list Q) : result nat :=
  match col with
  | [] => Raise (Exception "ValueError" "attempt to get argmax of an empty sequence")
  | x :: rest => Ok (argmax_from 0%nat x 1%nat rest)
  end.

Definition idxmin (col : list Q) : result nat :=
  match col with
  | [] => Raise (Exception "ValueError" "attempt to get argmin of an empty sequence")
  | x :: rest => Ok (argmin_from 0%nat x 1%nat rest)
  end.

(** [df.loc[i]] on a frame indexed 0..n-1. *)
Definition df_loc {A : Type} (df : list A) (i : nat) : result A :=
  match df !! i with
  | Some row => Ok row
  | None => Raise (Exception "KeyError" (pretty i))
  end.

Section EsgLogic.

(** What pandas makes of a text cell: its number, or nothing when the
    text is not numeric. *)
Variable parse_float : string -> option Q.

(** Python's [f"{x:.1f}"] and [f"{x}"] on a number. *)
Variable format_1f : Q -> string.
Variable format_num : Q -> string.

(** [pd.to_numeric(col, errors='coerce')] on one cell.  The cell is taken
    to hold a finite number or something that is no number: text that
    pandas reads as an infinity ("inf") has no counterpart among the
    values of [float]. *)
Definition to_numeric_coerce (v : pyval) : float :=
  match v with
  | PyNum x => Fin x
  | PyStr s => match parse_float s with Some x => Fin x | None => NaN end
  | PyNone => NaN
  end.

(** ** compute_weighted_esg *)

Definition compute_weighted_esg (df : list JoinedRow) : list ScoredRow :=
  (fun r : JoinedRow => mkScored r ((esg_e r + esg_s r + esg_g r) / 3)) <$> df.

(** ** merge_price_and_esg *)

Definition merge_price_and_esg (price_df : list (Price.t pyval))
    (esg_df : list Esg.t) : list MergedAsset :=
  let price_df :=
    (fun p => Price.mk (Price.market p) (to_numeric_coerce (Price.last_price p)))
      <$> price_df in
  let merged :=
    (fun '(p, e) =>
       mkJoined (Price.market p) (Price.last_price p)
                (Esg.name e) (Esg.esg_e e) (Esg.esg_s e) (Esg.esg_g e))
      <$> df_merge_inner Price.market Esg.market price_df esg_df in
  let merged := compute_weighted_esg merged in
  (fun r : ScoredRow => mkMerged r (categorize_esg_score (ESG_Score r))) <$> merged.

(** ** calculate_portfolio_metrics *)

Definition default_holdings : gmap string Q :=
  <["BTCUSDT" := 1 # 2]>
    (<["ETHUSDT" := 12 # 10]>
       (<["ADAUSDT" := 100]>
          (<["MATICUSDT" := 500]>
             (<["SOLUSDT" := 10]> ∅)))).

(** [df["market"].map(holdings_dict).fillna(0)] on one cell. *)
Definition map_fillna0 (holdings_dict : gmap string Q) (k : string) : Q :=
  match holdings_dict !! k with
  | Some q => q
  | None => 0
  end.

(** [(df[col] * df["Value (USD)"]).sum() / total_value] *)
Definition weighted (col : ValuedAsset -> Q) (df : list ValuedAsset)
    (total : Q) : float :=
  np_div (series_sum ((fun v : ValuedAsset => fmul (Fin (col v)) (Value_USD v)) <$> df)) total.

Definition calculate_portfolio_metrics (df : list MergedAsset)
    (holdings_dict : option (gmap string Q)) : list ValuedAsset * PortfolioMetrics :=
  let holdings_dict :=
    match holdings_dict with
    | None => default_holdings
    | Some d => d
    end in
  let df :=
    (fun r : MergedAsset =>
       let h := map_fillna0 holdings_dict (market r) in
       mkValued r h (fmul (Fin h) (last_price r))) <$> df in
  let total_value := series_sum (Value_USD <$> df) in
  let '(weighted_esg, weighted_env, weighted_social, weighted_governance) :=
    if Qlt_le_dec 0 total_value then
      (weighted (fun v => ESG_Score v) df total_value,
       weighted (fun v => esg_e v) df total_value,
       weighted (fun v => esg_s v) df total_value,
       weighted (fun v => esg_g v) df total_value)
    else (Fin 0, Fin 0, Fin 0, Fin 0) in
  (df,
   mkMetrics total_value weighted_esg weighted_env weighted_social
             weighted_governance
             (length (filter (fun v : ValuedAsset => 0 < Holding v) df))).

(** ** get_esg_insights *)

Definition get_esg_insights (df : list ValuedAsset) : result (list string) :=
  let* i_best := idxmax ((fun v : ValuedAsset => ESG_Score v) <$> df) in
  let* best_esg := df_loc df i_best in
  let* i_worst := idxmin ((fun v : ValuedAsset => ESG_Score v) <$> df) in
  let* worst_esg := df_loc df i_worst in
  let insights :=
    [ "🏆 Highest ESG Score: " +:+ name best_esg +:+ " ("
        +:+ format_1f (ESG_Score best_esg) +:+ ")";
      "⚠️ Lowest ESG Score: " +:+ name worst_esg +:+ " ("
        +:+ format_1f (ESG_Score worst_esg) +:+ ")" ] in
  let high_esg_count := length (filter (fun v : ValuedAsset => 70 <= ESG_Score v) df) in
  let total_count := length df in
  let insights :=
    insights ++
    [ "📊 " +:+ pretty high_esg_count +:+ "/" +:+ pretty total_count
        +:+ " assets have ESG scores ≥ 70" ] in
  let* i_env := idxmax ((fun v : ValuedAsset => esg_e v) <$> df) in
  let* env_leader := df_loc df i_env in
  Ok (insights ++
      [ "🌱 Environmental Leader: " +:+ name env_leader +:+ " ("
          +:+ format_num (esg_e env_leader) +:+ "/100)" ]).

End EsgLogic.

(** ** Definitions used to state the properties *)

(** The six labels, best first, and the rank of a label (5 is best). *)
Definition rating_labels : list string :=
  [ "A+ (Excellent)"; "A (Very Good)"; "B+ (Good)"; "B (Fair)";
    "C+ (Below Average)"; "C (Poor)" ].

Definition rating_rank (label : string) : option nat :=
  if decide (label = "A+ (Excellent)") then Some 5%nat
  else if decide (label = "A (Very Good)") then Some 4%nat
  else if decide (label = "B+ (Good)") then Some 3%nat
  else if decide (label = "B (Fair)") then Some 2%nat
  else if decide (label = "C+ (Below Average)") then Some 1%nat
  else if decide (label = "C (Poor)") then Some 0%nat
  else None.

(** The threshold table as the specification words it: rows read from
    the top, the first row whose threshold the score reaches gives the
    label, and "C (Poor)" when none does. *)
Definition rating_table : list (Q * string) :=
  [ (80, "A+ (Excellent)"); (70, "A (Very Good)"); (60, "B+ (Good)");
    (50, "B (Fair)"); (40, "C+ (Below Average)") ].

Fixpoint first_match (table : list (Q * string)) (score : Q) : string :=
  match table with
  | [] => "C (Poor)"
  | (threshold, label) :: rest =>
      if decide (threshold <= score) then label else first_match rest score
  end.

Definition rating_by_table (score : Q) : string := first_match rating_table score.

(** Least and greatest element of a column; nothing for an empty one. *)
Definition col_min (xs : list Q) : option Q :=
  match xs with
  | [] => None
  | x :: rest => Some (foldr Qmin x rest)
  end.

Definition col_max (xs : list Q) : option Q :=
  match xs with
  | [] => None
  | x :: rest => Some (foldr Qmax x rest)
  end.

(** [w] is a number between the least and the greatest value of column
    [col] over the rows of [valued] with a positive holding. *)
Definition within_held_range (col : ValuedAsset -> Q) (valued : list ValuedAsset)
    (w : float) : Prop :=
  exists x lo hi,
    w = Fin x /\
    col_min (col <$> filter (fun v : ValuedAsset => 0 < Holding v) valued) = Some lo /\
    col_max (col <$> filter (fun v : ValuedAsset => 0 < Holding v) valued) = Some hi /\
    lo <= x /\ x <= hi.

(** The holdings map in force: the caller's, or the built-in one. *)
Definition effective_holdings (holdings_dict : option (gmap string Q)) : gmap string Q :=
  match holdings_dict with
  | Some d => d
  | None => default_holdings
  end.

(** ** Concrete conversions for the examples

    The development is parametric in the text-to-number conversion and in
    the two number formats.  The examples instantiate them with plain
    decimal notation: an optional sign, digits and an optional fraction on
    input, one rounded decimal on output. *)

Definition digit_value (c : ascii) : option Z :=
  let n := Z.of_nat (nat_of_ascii c) in
  if decide (48 <= n <= 57)%Z then Some (n - 48)%Z else None.

Fixpoint parse_fraction (num : Z) (den : positive) (s : string) : option Q :=
  match s with
  | EmptyString => Some (num # den)
  | String c rest =>
      match digit_value c with
      | Some d => parse_fraction (10 * num + d)%Z (10 * den)%positive rest
      | None => None
      end
  end.

Fixpoint parse_digits (seen : bool) (num : Z) (s : string) : option Q :=
  match s with
  | EmptyString => if seen then Some (num # 1) else None
  | String c rest =>
      if decide (c = "."%char) then
        if seen then parse_fraction num 1 rest else None
      else
        match digit_value c with
        | Some d => parse_digits true (10 * num + d)%Z rest
        | None => None
        end
  end.

Definition parse_decimal (s : string) : option Q :=
  match s with
  | String "-"%char rest => Qopp <$> parse_digits false 0 rest
  | _ => parse_digits false 0 s
  end.

(** One decimal, the nearest tenth (halves to the even tenth). *)
Definition round_tenths (x : Q) : Z :=
  let t := x * 10 in
  let f := Qfloor t in
  let r := t - inject_Z f in
  if decide (r < 1 # 2) then f
  else if decide (1 # 2 < r) then (f + 1)%Z
  else if Z.even f then f else (f + 1)%Z.

Definition format_tenths (x : Q) : string :=
  let n := round_tenths x in
  (if decide (n < 0)%Z then "-" else "") +:+
  pretty (Z.abs n / 10)%Z +:+ "." +:+ pretty (Z.abs n mod 10)%Z.

(** ** The example of the specification *)

Definition example_prices : list (Price.t pyval) :=
  [ Price.mk "BTCUSDT" (PyStr "50000.0");
    Price.mk "ETHUSDT" (PyNum 3000);
    Price.mk "XRPUSDT" (PyStr "1") ].

Definition example_esg : list Esg.t :=
  [ Esg.mk "BTCUSDT" "BTC" 40 40 40;
    Esg.mk "ETHUSDT" "ETH" 70 70 70 ].

Definition example_holdings : gmap string Q :=
  <["BTCUSDT" := 1]> (<["ETHUSDT" := 1]> ∅).

Definition example_merged : list MergedAsset :=
  merge_price_and_esg parse_decimal example_prices example_esg.

Definition example_valued : list ValuedAsset :=
  (calculate_portfolio_metrics example_merged (Some example_holdings)).1.

Definition example_metrics : PortfolioMetrics :=
  (calculate_portfolio_metrics example_merged (Some example_holdings)).2.

(** ** Further notions the properties are stated with *)

(** The output row built from a price record and an ESG record. *)
Definition merged_row (parse_float : string -> option Q)
    (p : Price.t pyval) (e : Esg.t) : MergedAsset :=
  let joined :=
    mkJoined (Price.market p) (to_numeric_coerce parse_float (Price.last_price p))
             (Esg.name e) (Esg.esg_e e) (Esg.esg_s e) (Esg.esg_g e) in
  let score := (Esg.esg_e e + Esg.esg_s e + Esg.esg_g e) / 3 in
  mkMerged (mkScored joined score) (categorize_esg_score score).

(** No merged asset has a missing price. *)
Definition no_missing_price (merged : list MergedAsset) : Prop :=
  forall a : MergedAsset, a ∈ merged -> last_price a <> NaN.

(** The rows of the valued table for a holdings map. *)
Definition valued_rows (held : gmap string Q) (df : list MergedAsset) : list ValuedAsset :=
  (fun r : MergedAsset =>
     mkValued r (map_fillna0 held (market r))
              (fmul (Fin (map_fillna0 held (market r))) (last_price r))) <$> df.

(** The guarded weighted metric. *)
Definition guarded_weighted (col : ValuedAsset -> Q) (valued : list ValuedAsset) : float :=
  let total := series_sum (Value_USD <$> valued) in
  if Qlt_le_dec 0 total then weighted col valued total else Fin 0.

(** The four weighted metrics lie in the range of their column over the
    held assets. *)
Definition weighted_metrics_within_range (df : list MergedAsset)
    (holdings_dict : option (gmap string Q)) : Prop :=
  let valued := (calculate_portfolio_metrics df holdings_dict).1 in
  let m := (calculate_portfolio_metrics df holdings_dict).2 in
  within_held_range (fun v => ESG_Score v) valued (weighted_esg m) /\
  within_held_range (fun v => esg_e v) valued (weighted_environmental m) /\
  within_held_range (fun v => esg_s v) valued (weighted_social m) /\
  within_held_range (fun v => esg_g v) valued (weighted_governance m).

(** A held asset quoted at a price of 0. *)
Definition zero_price_merged : list MergedAsset :=
  merge_price_and_esg parse_decimal
    [ Price.mk "BTCUSDT" (PyStr "0.0") ]
    [ Esg.mk "BTCUSDT" "BTC" 40 40 40 ].

(** Row [v] at position [i] holds the greatest (least) value of column
    [col], and no earlier row does. *)
Definition first_max {A : Type} (col : A -> Q) (df : list A) (i : nat) (v : A) : Prop :=
  df !! i = Some v /\
  (forall w, w ∈ df -> col w <= col v) /\
  (forall j w, (j < i)%nat -> df !! j = Some w -> col w < col v).

Definition first_min {A : Type} (col : A -> Q) (df : list A) (i : nat) (v : A) : Prop :=
  df !! i = Some v /\
  (forall w, w ∈ df -> col v <= col w) /\
  (forall j w, (j < i)%nat -> df !! j = Some w -> col v < col w).

(** The call fails with an exception of class [cls]. *)
Definition fails_with {A : Type} (cls : string) (r : result A) : Prop :=
  exists e : exception, r = Raise e /\ exc_class e = cls.

(** Rows with a number for a value have a non-negative one, and a
    positive one only where the column lies between [lo] and [hi]. *)
Definition bounded_where_valued (col : ValuedAsset -> Q) (lo hi : Q)
    (vs : list ValuedAsset) : Prop :=
  forall v : ValuedAsset, v ∈ vs ->
  forall x : Q, Value_USD v = Fin x ->
  0 <= x /\ (0 < x -> lo <= col v /\ col v <= hi).

(** ** app.py: the computations of the dashboard script

    The script's calls to Streamlit and Plotly only display values; what
    is modelled is what the script computes between them, in the order of
    the source, with the exceptions the lookups can raise. *)

(** A frame with its index labels; a fresh frame is labelled 0..n-1. *)
Definition with_index {A : Type} (df : list A) : list (nat * A) :=
  imap (fun i r => (i, r)) df.

(** [df[mask]]: the rows that satisfy the mask, each under its label. *)
Definition boolean_mask {A : Type} (P : A -> Prop) `{forall r, Decision (P r)}
    (idf : list (nat * A)) : list (nat * A) :=
  filter (fun p : nat * A => P p.2) idf.

(** [Series.idxmax()] on a labelled column that may have missing cells
    ([skipna=True]): the label of the first greatest number.  A column
    with no number in it (empty, or all cells missing) makes the lookup
    fail. *)
Fixpoint idxmax_scan (best : option (nat * Q)) (col : list (nat * float))
    : option (nat * Q) :=
  match col with
  | [] => best
  | (_, NaN) :: rest => idxmax_scan best rest
  | (label, Fin x) :: rest =>
      match best with
      | None => idxmax_scan (Some (label, x)) rest
      | Some (_, bx) =>
          if Qle_bool x bx then idxmax_scan best rest
          else idxmax_scan (Some (label, x)) rest
      end
  end.

Definition idxmax_skipna (col : list (nat * float)) : result nat :=
  match idxmax_scan None col with
  | Some (label, _) => Ok label
  | None => Raise (Exception "ValueError" "attempt to get argmax of an empty sequence")
  end.

(** [df.loc[label]] on a frame whose labels are distinct. *)
Fixpoint loc_label {A : Type} (idf : list (nat * A)) (label : nat) : result A :=
  match idf with
  | [] => Raise (Exception "KeyError" (pretty label))
  | (l, row) :: rest => if decide (l = label) then Ok row else loc_label rest label
  end.

(** [df.nlargest(n, col)]: the first [n] rows in descending order of the
    column, rows of equal value in their order of appearance
    ([keep='first']). *)
Fixpoint insert_desc {A : Type} (col : A -> Q) (x : A) (sorted : list A) : list A :=
  match sorted with
  | [] => [x]
  | y :: rest =>
      if Qle_bool (col y) (col x) then x :: y :: rest
      else y :: insert_desc col x rest
  end.

Definition sort_desc {A : Type} (col : A -> Q) (df : list A) : list A :=
  foldr (insert_desc col) [] df.

Definition nlargest {A : Type} (n : nat) (col : A -> Q) (df : list A) : list A :=
  take n (sort_desc col df).

(** What one run of the script has computed when it reaches its end. *)
Record Dashboard : Type := mkDashboard {
  df_with_portfolio : list ValuedAsset;
  portfolio_metrics : PortfolioMetrics;
  holdings_df : list (nat * ValuedAsset);
  largest_holding : option ValuedAsset;
  insights : list string;
  top_esg : list ValuedAsset
}.

(** How a run ends: with a rerun requested before anything is loaded, with
    the error banner, with the dashboard, or with the dashboard followed
    by the 30 s sleep and a rerun. *)
Inductive outcome : Type :=
  | Rerun : outcome
  | ErrorBanner : outcome
  | Rendered : Dashboard -> outcome
  | RenderedThenRerun : Dashboard -> outcome.

(** Lines 46-62: the holdings the sidebar yields. *)
Definition custom_holdings (use_custom_portfolio : bool)
    (btc_holding eth_holding ada_holding matic_holding sol_holding : Q)
    : option (gmap string Q) :=
  if use_custom_portfolio then
    Some (<["BTCUSDT" := btc_holding]>
            (<["ETHUSDT" := eth_holding]>
               (<["ADAUSDT" := ada_holding]>
                  (<["MATICUSDT" := matic_holding]>
                     (<["SOLUSDT" := sol_holding]> ∅)))))
  else None.

(** Lines 126-133: the largest position, looked up only under a positive
    total value. *)
Definition largest_position (holdings_df : list (nat * ValuedAsset))
    (portfolio_metrics : PortfolioMetrics) : result (option ValuedAsset) :=
  if Qlt_le_dec 0 (total_value portfolio_metrics) then
    let* label :=
      idxmax_skipna ((fun p : nat * ValuedAsset => (p.1, Value_USD p.2))
                       <$> holdings_df) in
    let* largest_holding := loc_label holdings_df label in
    Ok (Some largest_holding)
  else Ok None.

(** Lines 231-243: [px.scatter(df_with_portfolio, ..., size="Value (USD)")],
    built whenever the valued table has a row.  The marker sizes are
    validated when the figure is built: each must be a number that is not
    negative, and a missing or a negative value raises [ValueError].  The
    other charts (pie, bars) and the two tables take their columns as plain
    data, with no such validation, and are taken not to raise. *)
Definition valid_marker_size (x : float) : bool :=
  match x with
  | NaN => false
  | Fin q => Qle_bool 0 q
  end.

Definition px_scatter (df_with_portfolio : list ValuedAsset) : result unit :=
  match df_with_portfolio with
  | [] => Ok tt
  | _ :: _ =>
      if forallb valid_marker_size (Value_USD <$> df_with_portfolio) then Ok tt
      else Raise (Exception "ValueError"
                    "Invalid element(s) received for the 'size' property of scatter.marker")
  end.

Section App.

Variable parse_float : string -> option Q.
Variable format_1f : Q -> string.
Variable format_num : Q -> string.

(** [load_data]: any exception of the fetch, of the CSV read or of the
    merge is caught and gives [None].  ([fetched] and [esg_csv] are what
    the two reads yield; the 30 s cache around the function only decides
    whether its body runs again and is not modelled.) *)
Definition load_data (fetched : result (list (Price.t pyval)))
    (esg_csv : result (list Esg.t)) : option (list MergedAsset) :=
  match (let* price_df := fetched in
         let* esg_df := esg_csv in
         Ok (merge_price_and_esg parse_float price_df esg_df)) with
  | Ok merged_df => Some merged_df
  | Raise _ => None
  end.

(** One run of the script. *)
Definition app (auto_refresh use_custom_portfolio : bool)
    (btc_holding eth_holding ada_holding matic_holding sol_holding : Q)
    (fetched : result (list (Price.t pyval))) (esg_csv : result (list Esg.t))
    : result outcome :=
  let custom_holdings :=
    custom_holdings use_custom_portfolio btc_holding eth_holding ada_holding
                    matic_holding sol_holding in
  if auto_refresh then Ok Rerun
  else
    match load_data fetched esg_csv with
    | Some ((_ :: _) as df) =>
        let '(df_with_portfolio, portfolio_metrics) :=
          calculate_portfolio_metrics df custom_holdings in
        let holdings_df :=
          boolean_mask (fun v : ValuedAsset => 0 < Holding v)
                       (with_index df_with_portfolio) in
        let* largest_holding := largest_position holdings_df portfolio_metrics in
        let* _ := px_scatter df_with_portfolio in
        let* insights := get_esg_insights format_1f format_num df_with_portfolio in
        let top_esg := nlargest 5 (fun v : ValuedAsset => ESG_Score v)
                                df_with_portfolio in
        let dashboard :=
          mkDashboard df_with_portfolio portfolio_metrics holdings_df
                      largest_holding insights top_esg in
        if auto_refresh then Ok (RenderedThenRerun dashboard)
        else Ok (Rendered dashboard)
    | _ => Ok ErrorBanner
    end.

End App.

(** ** Notions for the properties of the script *)

(** The rating is one of the two best. *)
Definition rated_A (v : ValuedAsset) : Prop :=
  ESG_Rating v = "A+ (Excellent)" \/ ESG_Rating v = "A (Very Good)".

(** ** The portfolio calculator under rounded arithmetic

    The code multiplies, adds up and divides float64 numbers, and every
    such operation rounds.  Here the calculator is written once more with
    these three operations as parameters: [fl_mul] for [*] on two cells,
    [fl_div] for [/] and [fl_sum] for [Series.sum()] (missing cells
    skipped).  With the exact operations it is
    [calculate_portfolio_metrics]. *)

Section Rounded.

Variable fl_mul : Q -> Q -> Q.
Variable fl_div : Q -> Q -> Q.
Variable fl_sum : list float -> Q.

Definition fmul_rounded (a b : float) : float :=
  match a, b with
  | Fin x, Fin y => Fin (fl_mul x y)
  | _, _ => NaN
  end.

Definition np_div_rounded (a b : Q) : float :=
  if Qeq_bool b 0 then NaN else Fin (fl_div a b).

Definition weighted_rounded (col : ValuedAsset -> Q) (df : list ValuedAsset)
    (total : Q) : float :=
  np_div_rounded
    (fl_sum ((fun v : ValuedAsset => fmul_rounded (Fin (col v)) (Value_USD v)) <$> df))
    total.

Definition calculate_portfolio_metrics_rounded (df : list MergedAsset)
    (holdings_dict : option (gmap string Q)) : list ValuedAsset * PortfolioMetrics :=
  let holdings_dict :=
    match holdings_dict with
    | None => default_holdings
    | Some d => d
    end in
  let df :=
    (fun r : MergedAsset =>
       let h := map_fillna0 holdings_dict (market r) in
       mkValued r h (fmul_rounded (Fin h) (last_price r))) <$> df in
  let total_value := fl_sum (Value_USD <$> df) in
  let '(weighted_esg, weighted_env, weighted_social, weighted_governance) :=
    if Qlt_le_dec 0 total_value then
      (weighted_rounded (fun v => ESG_Score v) df total_value,
       weighted_rounded (fun v => esg_e v) df total_value,
       weighted_rounded (fun v => esg_s v) df total_value,
       weighted_rounded (fun v => esg_g v) df total_value)
    else (Fin 0, Fin 0, Fin 0, Fin 0) in
  (df,
   mkMetrics total_value weighted_esg weighted_env weighted_social
             weighted_governance
             (length (filter (fun v : ValuedAsset => 0 < Holding v) df))).

(** Its valued rows and its guarded metric, for the proofs. *)
Definition valued_rows_rounded (held : gmap string Q) (df : list MergedAsset)
    : list ValuedAsset :=
  (fun r : MergedAsset =>
     mkValued r (map_fillna0 held (market r))
              (fmul_rounded (Fin (map_fillna0 held (market r))) (last_price r))) <$> df.

Definition guarded_weighted_rounded (col : ValuedAsset -> Q)
    (valued : list ValuedAsset) : float :=
  let total := fl_sum (Value_USD <$> valued) in
  if Qlt_le_dec 0 total then weighted_rounded col valued total else Fin 0.

End Rounded.

Fixpoint pow (x : Q) (n : nat) : Q :=
  match n with
  | O => 1
  | S n' => x * pow x n'
  end.

(** The usual model of rounded arithmetic with unit roundoff [u], on the
    non-negative numbers, where no result overflows or underflows: a
    product and a quotient are off by a factor between [1 - u] and
    [1 + u], and a sum of [n] non-negative cells, in whatever order the
    additions are done, by a factor between [(1 - u)^(n-1)] and
    [(1 + u)^(n-1)].  For float64, [u] is 2^-53. *)
Definition rounds_within (u : Q) (fl_mul fl_div : Q -> Q -> Q)
    (fl_sum : list float -> Q) : Prop :=
  (forall x y, 0 <= x -> 0 <= y ->
     (1 - u) * (x * y) <= fl_mul x y /\ fl_mul x y <= (1 + u) * (x * y)) /\
  (forall x y, 0 <= x -> 0 < y ->
     (1 - u) * (x / y) <= fl_div x y /\ fl_div x y <= (1 + u) * (x / y)) /\
  (forall xs : list float, (forall x, Fin x ∈ xs -> 0 <= x) ->
     pow (1 - u) (length xs - 1) * series_sum xs <= fl_sum xs /\
     fl_sum xs <= pow (1 + u) (length xs - 1) * series_sum xs).

(** [w] is a number between the least and the greatest value of column
    [col] over the held rows, up to the rounding of the [n + 1]
    operations behind it, [n] the number of rows. *)
Definition within_held_range_rounded (u : Q) (col : ValuedAsset -> Q)
    (valued : list ValuedAsset) (w : float) : Prop :=
  let n := length valued in
  exists x lo hi,
    w = Fin x /\
    col_min (col <$> filter (fun v : ValuedAsset => 0 < Holding v) valued) = Some lo /\
    col_max (col <$> filter (fun v : ValuedAsset => 0 < Holding v) valued) = Some hi /\
    lo * ((1 - u) * (1 - u) * pow (1 - u) (n - 1) / pow (1 + u) (n - 1)) <= x /\
    x <= hi * ((1 + u) * (1 + u) * pow (1 + u) (n - 1) / pow (1 - u) (n - 1)).

(** An arithmetic that always errs by the full allowance of float64: a
    product comes out too large, a quotient too small; sums are exact. *)
Definition float64_u : Q := 1 # 9007199254740992.
Definition mul_rounded_up (x y : Q) : Q := (1 + float64_u) * (x * y).
Definition div_rounded_down (x y : Q) : Q := (1 - float64_u) * (x / y).

(** * Properties *)

(** ** The rating function *)

Lemma Qle_bool_true (x y : Q) : Qle_bool x y = true -> x <= y.
Proof. apply Qle_bool_iff. Qed.

Lemma Qle_bool_false (x y : Q) : Qle_bool x y = false -> y < x.
Proof.
  intros H. apply Qnot_le_lt. intros Hle.
  apply Qle_bool_iff in Hle. congruence.
Qed.

(** Split on every threshold test of the goal, turning each outcome into
    an inequality of the context. *)
Ltac split_thresholds :=
  repeat match goal with
  | |- context [Qle_bool ?t ?s] =>
      let E := fresh "E" in
      destruct (Qle_bool t s) eqn:E;
      [apply Qle_bool_true in E | apply Qle_bool_false in E]
  end.

Example rating_at_40 : categorize_esg_score 40 = "C+ (Below Average)".
Proof. reflexivity. Qed.

Example rating_below_40 : categorize_esg_score (3999 # 100) = "C (Poor)".
Proof. reflexivity. Qed.

Example rating_at_70 : categorize_esg_score 70 = "A (Very Good)".
Proof. reflexivity. Qed.

Example rating_negative : categorize_esg_score (-250) = "C (Poor)".
Proof. reflexivity. Qed.

Example rating_above_100 : categorize_esg_score 1000 = "A+ (Excellent)".
Proof. reflexivity. Qed.

(** The code's cascade of tests is the specification's table. *)
Lemma categorize_is_table (score : Q) :
  categorize_esg_score score = rating_by_table score.
Proof.
  unfold categorize_esg_score, rating_by_table, rating_table, first_match.
  split_thresholds; repeat case_decide; try reflexivity; exfalso; lra.
Qed.

(** C10: [categorize_esg_score] is total: on every score, negative or
    above 100 included, it returns one of the six labels; every score
    below 40 gets "C (Poor)" and every score of 80 or more gets
    "A+ (Excellent)". *)
Theorem categorize_esg_score_total (score : Q) :
  categorize_esg_score score ∈ rating_labels /\
  (score < 40 -> categorize_esg_score score = "C (Poor)") /\
  (80 <= score -> categorize_esg_score score = "A+ (Excellent)").
Proof.
  unfold categorize_esg_score, rating_labels.
  split_thresholds; (split; [set_solver | split; intros H; first [reflexivity | exfalso; lra]]).
Qed.

Lemma categorize_esg_score_total_witness :
  categorize_esg_score (-250) = "C (Poor)" /\
  categorize_esg_score 1000 = "A+ (Excellent)".
Proof.
  split.
  - apply (proj1 (proj2 (categorize_esg_score_total (-250)))). reflexivity.
  - apply (proj2 (proj2 (categorize_esg_score_total 1000))). discriminate.
Defined.

(** C6: the rating is monotone: a strictly higher score never gets a
    strictly lower-ranked label. *)
Theorem categorize_esg_score_monotone (x y : Q) :
  y < x ->
  exists rx ry : nat,
    rating_rank (categorize_esg_score x) = Some rx /\
    rating_rank (categorize_esg_score y) = Some ry /\
    (ry <= rx)%nat.
Proof.
  intros Hlt. unfold categorize_esg_score.
  split_thresholds;
    (eexists; eexists; split; [reflexivity | split; [reflexivity |]]);
    first [lia | exfalso; lra].
Qed.

Lemma categorize_esg_score_monotone_witness :
  exists rx ry : nat,
    rating_rank (categorize_esg_score 75) = Some rx /\
    rating_rank (categorize_esg_score (45 # 1)) = Some ry /\
    (ry <= rx)%nat.
Proof. apply (categorize_esg_score_monotone 75 45). reflexivity. Defined.

(** ** The merge *)

Example example_merged_rows :
  (fun a : MergedAsset => (market a, last_price a, ESG_Score a, ESG_Rating a))
    <$> example_merged
  = [ ("BTCUSDT", Fin (500000 # 10), 120 / 3, "C+ (Below Average)");
      ("ETHUSDT", Fin 3000, 210 / 3, "A (Very Good)") ].
Proof. reflexivity. Qed.

Section Merge.

Variable parse_float : string -> option Q.

Lemma merge_rows (price_df : list (Price.t pyval)) (esg_df : list Esg.t) :
  merge_price_and_esg parse_float price_df esg_df =
  p ← price_df;
  merged_row parse_float p
    <$> filter (fun e => Price.market p = Esg.market e) esg_df.
Proof.
  unfold merge_price_and_esg, compute_weighted_esg, df_merge_inner.
  induction price_df as [| p rest IH]; [reflexivity |].
  rewrite fmap_cons, !bind_cons, !fmap_app, IH. f_equal.
  cbn [Price.market Price.last_price].
  induction (filter (fun e => Price.market p = Esg.market e) esg_df)
    as [| e es IHes]; [reflexivity |].
  rewrite !fmap_cons, IHes. reflexivity.
Qed.

Lemma elem_of_merge (a : MergedAsset) price_df esg_df :
  a ∈ merge_price_and_esg parse_float price_df esg_df <->
  exists p e, p ∈ price_df /\ e ∈ esg_df /\
              Price.market p = Esg.market e /\ a = merged_row parse_float p e.
Proof.
  rewrite merge_rows, list_elem_of_bind. split.
  - intros (p & Ha & Hp). apply list_elem_of_fmap in Ha as (e & -> & He).
    apply list_elem_of_filter in He as [Hk He]. eauto 10.
  - intros (p & e & Hp & He & Hk & ->). exists p. split; [| exact Hp].
    apply list_elem_of_fmap_2, list_elem_of_filter. auto.
Qed.

End Merge.

(** The table band by band. *)
Lemma categorize_bands (score : Q) :
  (80 <= score -> categorize_esg_score score = "A+ (Excellent)") /\
  (70 <= score -> score < 80 -> categorize_esg_score score = "A (Very Good)") /\
  (60 <= score -> score < 70 -> categorize_esg_score score = "B+ (Good)") /\
  (50 <= score -> score < 60 -> categorize_esg_score score = "B (Fair)") /\
  (40 <= score -> score < 50 -> categorize_esg_score score = "C+ (Below Average)") /\
  (score < 40 -> categorize_esg_score score = "C (Poor)").
Proof.
  unfold categorize_esg_score.
  split_thresholds; repeat split; intros; first [reflexivity | exfalso; lra].
Qed.

(** C5: every merged asset has [esg_score = (esg_e + esg_s + esg_g) / 3],
    and its rating is the label the threshold table gives for that score,
    read top-down with the first match winning: 80 and more
    "A+ (Excellent)", 70 and more "A (Very Good)", 60 and more "B+ (Good)",
    50 and more "B (Fair)", 40 and more "C+ (Below Average)", else
    "C (Poor)". *)
Theorem merged_score_and_rating (parse_float : string -> option Q)
    (price_df : list (Price.t pyval)) (esg_df : list Esg.t) (a : MergedAsset) :
  a ∈ merge_price_and_esg parse_float price_df esg_df ->
  ESG_Score a = (esg_e a + esg_s a + esg_g a) / 3 /\
  ESG_Rating a = rating_by_table (ESG_Score a) /\
  (80 <= ESG_Score a -> ESG_Rating a = "A+ (Excellent)") /\
  (70 <= ESG_Score a -> ESG_Score a < 80 -> ESG_Rating a = "A (Very Good)") /\
  (60 <= ESG_Score a -> ESG_Score a < 70 -> ESG_Rating a = "B+ (Good)") /\
  (50 <= ESG_Score a -> ESG_Score a < 60 -> ESG_Rating a = "B (Fair)") /\
  (40 <= ESG_Score a -> ESG_Score a < 50 -> ESG_Rating a = "C+ (Below Average)") /\
  (ESG_Score a < 40 -> ESG_Rating a = "C (Poor)").
Proof.
  intros Ha. apply elem_of_merge in Ha as (p & e & _ & _ & _ & ->).
  split; [reflexivity |]. cbn.
  split; [apply categorize_is_table | apply categorize_bands].
Qed.

Lemma merged_score_and_rating_witness :
  let a := merged_row parse_decimal (Price.mk "ETHUSDT" (PyNum 3000))
                      (Esg.mk "ETHUSDT" "ETH" 70 70 70) in
  ESG_Score a = (esg_e a + esg_s a + esg_g a) / 3 /\
  ESG_Rating a = rating_by_table (ESG_Score a) /\
  ESG_Rating a = "A (Very Good)".
Proof.
  pose proof (merged_score_and_rating parse_decimal example_prices example_esg
                (merged_row parse_decimal (Price.mk "ETHUSDT" (PyNum 3000))
                            (Esg.mk "ETHUSDT" "ETH" 70 70 70))) as H.
  destruct H as (Hscore & Htable & _ & Hband & _).
  - vm_compute. apply list_elem_of_further, list_elem_of_here.
  - split; [exact Hscore | split; [exact Htable |]].
    apply Hband; [discriminate | reflexivity].
Defined.

(** Against C1 as stated: the merge keeps a record whose price text is
    not a number. *)
Lemma merge_missing_price_counterexample :
  ~ no_missing_price
      (merge_price_and_esg parse_decimal
         [ Price.mk "BTCUSDT" (PyStr "n/a") ]
         [ Esg.mk "BTCUSDT" "BTC" 40 40 40 ]).
Proof.
  intros H.
  apply (H (merged_row parse_decimal (Price.mk "BTCUSDT" (PyStr "n/a"))
                       (Esg.mk "BTCUSDT" "BTC" 40 40 40))).
  - vm_compute. apply list_elem_of_here.
  - reflexivity.
Qed.

(** C1, as the code has it: a price record whose [last_price] is not
    numeric is coerced to the missing value without failing the batch, and
    the join, which is on the symbol alone, keeps it: whenever its symbol
    has an ESG entry the output holds the asset, with a missing
    [last_price]. *)
Theorem merge_keeps_missing_price (parse_float : string -> option Q)
    (price_df : list (Price.t pyval)) (esg_df : list Esg.t)
    (p : Price.t pyval) (e : Esg.t) :
  p ∈ price_df ->
  e ∈ esg_df ->
  Price.market p = Esg.market e ->
  to_numeric_coerce parse_float (Price.last_price p) = NaN ->
  exists a : MergedAsset,
    a ∈ merge_price_and_esg parse_float price_df esg_df /\
    market a = Price.market p /\
    name a = Esg.name e /\
    last_price a = NaN.
Proof.
  intros Hp He Hk Hnan. exists (merged_row parse_float p e).
  split; [apply elem_of_merge; eauto 10 |].
  cbn. auto.
Qed.

Lemma merge_keeps_missing_price_witness :
  exists a : MergedAsset,
    a ∈ merge_price_and_esg parse_decimal
          [ Price.mk "BTCUSDT" (PyStr "n/a"); Price.mk "ETHUSDT" (PyNum 3000) ]
          example_esg /\
    market a = "BTCUSDT" /\
    name a = "BTC" /\
    last_price a = NaN.
Proof.
  apply (merge_keeps_missing_price parse_decimal
           [ Price.mk "BTCUSDT" (PyStr "n/a"); Price.mk "ETHUSDT" (PyNum 3000) ]
           example_esg
           (Price.mk "BTCUSDT" (PyStr "n/a"))
           (Esg.mk "BTCUSDT" "BTC" 40 40 40)).
  - apply list_elem_of_here.
  - apply list_elem_of_here.
  - reflexivity.
  - reflexivity.
Defined.

Lemma filter_one {A : Type} (P : A -> Prop) `{forall x, Decision (P x)} (x : A) :
  filter P [x] = if decide (P x) then [x] else [].
Proof. exact (filter_singleton P x []). Qed.

Section Join.

Variable parse_float : string -> option Q.

(** With unique ESG symbols a price record meets at most one ESG
    record. *)
Lemma merge_symbols_of_one (p : Price.t pyval) (esg_df : list Esg.t) :
  NoDup (Esg.market <$> esg_df) ->
  (fun a : MergedAsset => market a)
    <$> (merged_row parse_float p
           <$> filter (fun e => Price.market p = Esg.market e) esg_df)
  = filter (fun k => k ∈ Esg.market <$> esg_df) [Price.market p].
Proof.
  induction esg_df as [| e es IH]; intros Hnd.
  - rewrite filter_one. case_decide as Hin; [| reflexivity].
    inversion Hin.
  - rewrite fmap_cons in Hnd. apply NoDup_cons in Hnd as [Hfresh Hnd].
    specialize (IH Hnd). rewrite filter_one in IH |- *.
    rewrite filter_cons. destruct (decide (Price.market p = Esg.market e)) as [Hk | Hk].
    + rewrite !fmap_cons, IH. cbn [merged_row market merged_base scored_base].
      rewrite decide_False by (rewrite Hk; exact Hfresh).
      rewrite decide_True by (rewrite Hk; apply list_elem_of_here).
      reflexivity.
    + rewrite IH. case_decide as Hin.
      * rewrite decide_True by (apply list_elem_of_further; exact Hin). reflexivity.
      * rewrite decide_False; [reflexivity |].
        rewrite fmap_cons. intros Hin'. apply elem_of_cons in Hin' as [Heq | Hin'];
          [exact (Hk Heq) | exact (Hin Hin')].
Qed.

Lemma merge_symbols (price_df : list (Price.t pyval)) (esg_df : list Esg.t) :
  NoDup (Esg.market <$> esg_df) ->
  (fun a : MergedAsset => market a) <$> merge_price_and_esg parse_float price_df esg_df
  = filter (fun k => k ∈ Esg.market <$> esg_df) (Price.market <$> price_df).
Proof.
  intros Hnd. rewrite merge_rows.
  induction price_df as [| p rest IH]; [reflexivity |].
  rewrite bind_cons, fmap_app, IH, merge_symbols_of_one by exact Hnd.
  rewrite fmap_cons.
  change (Price.market p :: (Price.market <$> rest))
    with ([Price.market p] ++ (Price.market <$> rest)).
  rewrite filter_app. reflexivity.
Qed.

Lemma merge_nil_r (price_df : list (Price.t pyval)) :
  merge_price_and_esg parse_float price_df [] = [].
Proof.
  rewrite merge_rows. induction price_df as [| p rest IH]; [reflexivity |].
  rewrite bind_cons, IH. reflexivity.
Qed.

End Join.

(** C3: with symbols unique in each table, the merge holds exactly
    |P ∩ E| assets, one per shared symbol: a symbol is in the output iff
    it is in both inputs, and an empty table on either side gives an empty
    output. *)
Theorem merge_inner_join (parse_float : string -> option Q)
    (price_df : list (Price.t pyval)) (esg_df : list Esg.t) :
  NoDup (Price.market <$> price_df) ->
  NoDup (Esg.market <$> esg_df) ->
  let merged := merge_price_and_esg parse_float price_df esg_df in
  let P : gset string := list_to_set (Price.market <$> price_df) in
  let E : gset string := list_to_set (Esg.market <$> esg_df) in
  length merged = size (P ∩ E) /\
  NoDup ((fun a : MergedAsset => market a) <$> merged) /\
  (forall s : string,
     s ∈ (fun a : MergedAsset => market a) <$> merged <->
     s ∈ Price.market <$> price_df /\ s ∈ Esg.market <$> esg_df) /\
  merge_price_and_esg parse_float [] esg_df = [] /\
  merge_price_and_esg parse_float price_df [] = [].
Proof.
  intros HP HE merged P E.
  assert (Hsym := merge_symbols parse_float price_df esg_df HE).
  fold merged in Hsym.
  assert (Hnd : NoDup ((fun a : MergedAsset => market a) <$> merged)).
  { rewrite Hsym. apply NoDup_filter, HP. }
  split; [| split; [exact Hnd | split; [| split]]].
  - rewrite <- (length_fmap (fun a : MergedAsset => market a)).
    rewrite <- (size_list_to_set (C := gset string)) by exact Hnd.
    f_equal. rewrite Hsym. apply set_eq. intros s. unfold P, E.
    rewrite elem_of_intersection, !elem_of_list_to_set, list_elem_of_filter.
    tauto.
  - intros s. rewrite Hsym, list_elem_of_filter. tauto.
  - reflexivity.
  - apply merge_nil_r.
Qed.

Lemma merge_inner_join_witness :
  length example_merged =
  size (list_to_set (Price.market <$> example_prices)
        ∩ list_to_set (Esg.market <$> example_esg) : gset string).
Proof.
  assert (HP : NoDup (Price.market <$> example_prices)).
  { apply (bool_decide_unpack _). vm_compute. exact I. }
  assert (HE : NoDup (Esg.market <$> example_esg)).
  { apply (bool_decide_unpack _). vm_compute. exact I. }
  exact (proj1 (merge_inner_join parse_decimal example_prices example_esg HP HE)).
Defined.

(** ** The portfolio calculator *)

Lemma calculate_portfolio_metrics_unfold (df : list MergedAsset)
    (holdings_dict : option (gmap string Q)) :
  let valued := valued_rows (effective_holdings holdings_dict) df in
  calculate_portfolio_metrics df holdings_dict =
  (valued,
   mkMetrics (series_sum (Value_USD <$> valued))
             (guarded_weighted (fun v => ESG_Score v) valued)
             (guarded_weighted (fun v => esg_e v) valued)
             (guarded_weighted (fun v => esg_s v) valued)
             (guarded_weighted (fun v => esg_g v) valued)
             (length (filter (fun v : ValuedAsset => 0 < Holding v) valued))).
Proof.
  unfold calculate_portfolio_metrics, guarded_weighted, valued_rows, effective_holdings.
  destruct holdings_dict as [d |];
    match goal with
    | |- context [Qlt_le_dec 0 ?t] => destruct (Qlt_le_dec 0 t)
    end; reflexivity.
Qed.

Example example_total_value : total_value example_metrics == 53000.
Proof. vm_compute. reflexivity. Qed.

Example example_weighted_esg :
  exists w, weighted_esg example_metrics = Fin w /\ w == (40 * 50000 + 70 * 3000) / 53000.
Proof. eexists. split; [vm_compute; reflexivity | vm_compute; reflexivity]. Qed.

Example example_num_holdings : num_holdings example_metrics = 2%nat.
Proof. vm_compute. reflexivity. Qed.

Example default_holdings_entries :
  size default_holdings = 5%nat /\
  default_holdings !! "BTCUSDT" = Some (1 # 2) /\
  default_holdings !! "ETHUSDT" = Some (12 # 10) /\
  default_holdings !! "ADAUSDT" = Some 100 /\
  default_holdings !! "MATICUSDT" = Some 500 /\
  default_holdings !! "SOLUSDT" = Some 10.
Proof. vm_compute. repeat split. Qed.

(** The built-in map, symbol by symbol. *)
Lemma default_holdings_lookup (k : string) :
  map_fillna0 default_holdings k =
  if decide (k = "BTCUSDT") then 1 # 2
  else if decide (k = "ETHUSDT") then 12 # 10
  else if decide (k = "ADAUSDT") then 100
  else if decide (k = "MATICUSDT") then 500
  else if decide (k = "SOLUSDT") then 10
  else 0.
Proof.
  unfold map_fillna0, default_holdings.
  repeat (case_decide;
          [subst k; reflexivity | rewrite lookup_insert_ne by congruence]).
  rewrite lookup_empty. reflexivity.
Qed.


Lemma np_div_nonzero (a b : Q) : ~ b == 0 -> np_div a b = Fin (a / b).
Proof.
  intros Hb. unfold np_div. destruct (Qeq_bool b 0) eqn:E; [| reflexivity].
  apply Qeq_bool_iff in E. contradiction.
Qed.

Lemma guarded_weighted_zero (col : ValuedAsset -> Q) (valued : list ValuedAsset) :
  series_sum (Value_USD <$> valued) == 0 -> guarded_weighted col valued = Fin 0.
Proof.
  intros Hz. unfold guarded_weighted.
  destruct (Qlt_le_dec 0 (series_sum (Value_USD <$> valued))) as [Hpos | _];
    [| reflexivity].
  exfalso. lra.
Qed.

Lemma guarded_weighted_positive (col : ValuedAsset -> Q) (valued : list ValuedAsset) :
  0 < series_sum (Value_USD <$> valued) ->
  guarded_weighted col valued =
  Fin (series_sum ((fun v : ValuedAsset => fmul (Fin (col v)) (Value_USD v)) <$> valued)
       / series_sum (Value_USD <$> valued)).
Proof.
  intros Hpos. unfold guarded_weighted.
  destruct (Qlt_le_dec 0 (series_sum (Value_USD <$> valued))) as [_ | Hle];
    [| exfalso; lra].
  unfold weighted. apply np_div_nonzero. lra.
Qed.

Lemma guarded_weighted_finite (col : ValuedAsset -> Q) (valued : list ValuedAsset) :
  guarded_weighted col valued <> NaN.
Proof.
  destruct (Qlt_le_dec 0 (series_sum (Value_USD <$> valued))) as [Hpos | Hle].
  - rewrite guarded_weighted_positive by exact Hpos. discriminate.
  - unfold guarded_weighted.
    destruct (Qlt_le_dec 0 (series_sum (Value_USD <$> valued))); [exfalso; lra |].
    discriminate.
Qed.

(** C4: when the total portfolio value is 0 the four weighted metrics
    are 0; and no division by a zero total ever happens: on every input
    each weighted metric is a finite number. *)
Theorem zero_total_value_guard (df : list MergedAsset)
    (holdings_dict : option (gmap string Q)) :
  let m := (calculate_portfolio_metrics df holdings_dict).2 in
  (total_value m == 0 ->
   weighted_esg m = Fin 0 /\ weighted_environmental m = Fin 0 /\
   weighted_social m = Fin 0 /\ weighted_governance m = Fin 0) /\
  (weighted_esg m <> NaN /\ weighted_environmental m <> NaN /\
   weighted_social m <> NaN /\ weighted_governance m <> NaN).
Proof.
  rewrite calculate_portfolio_metrics_unfold. cbn [snd].
  cbn [total_value weighted_esg weighted_environmental weighted_social
       weighted_governance].
  split.
  - intros Hz. repeat split; apply guarded_weighted_zero; exact Hz.
  - repeat split; apply guarded_weighted_finite.
Qed.

Lemma zero_total_value_guard_witness :
  let m := (calculate_portfolio_metrics example_merged (Some ∅)).2 in
  weighted_esg m = Fin 0 /\ weighted_environmental m = Fin 0 /\
  weighted_social m = Fin 0 /\ weighted_governance m = Fin 0.
Proof.
  apply (proj1 (zero_total_value_guard example_merged (Some ∅))).
  vm_compute. reflexivity.
Defined.

(** ** The weighted-average bound *)

Lemma col_min_le (xs : list Q) (lo : Q) :
  col_min xs = Some lo -> forall x, x ∈ xs -> lo <= x.
Proof.
  destruct xs as [| x0 rest]; [discriminate |]. cbn. intros [= <-].
  induction rest as [| y rest IH]; intros x Hx.
  - apply list_elem_of_singleton in Hx as ->. cbn. lra.
  - cbn [foldr]. apply elem_of_cons in Hx as [-> | Hx].
    + eapply Qle_trans; [apply Q.le_min_r |]. apply IH, list_elem_of_here.
    + apply elem_of_cons in Hx as [-> | Hx].
      * apply Q.le_min_l.
      * eapply Qle_trans; [apply Q.le_min_r |].
        apply IH, list_elem_of_further, Hx.
Qed.

Lemma col_max_ge (xs : list Q) (hi : Q) :
  col_max xs = Some hi -> forall x, x ∈ xs -> x <= hi.
Proof.
  destruct xs as [| x0 rest]; [discriminate |]. cbn. intros [= <-].
  induction rest as [| y rest IH]; intros x Hx.
  - apply list_elem_of_singleton in Hx as ->. cbn. lra.
  - cbn [foldr]. apply elem_of_cons in Hx as [-> | Hx].
    + eapply Qle_trans; [| apply Q.le_max_r]. apply IH, list_elem_of_here.
    + apply elem_of_cons in Hx as [-> | Hx].
      * apply Q.le_max_l.
      * eapply Qle_trans; [| apply Q.le_max_r].
        apply IH, list_elem_of_further, Hx.
Qed.

Lemma col_min_max_defined (xs : list Q) (x : Q) :
  x ∈ xs -> exists lo hi, col_min xs = Some lo /\ col_max xs = Some hi.
Proof.
  destruct xs as [| x0 rest]; [intros H; inversion H |].
  intros _. eexists; eexists; split; reflexivity.
Qed.

Lemma fmul_fin (a b : Q) : fmul (Fin a) (Fin b) = Fin (a * b).
Proof. reflexivity. Qed.

Lemma fmul_nan_r (a : float) : fmul a NaN = NaN.
Proof. destruct a; reflexivity. Qed.

Lemma series_sum_fin (x : Q) (xs : list float) :
  series_sum (Fin x :: xs) = x + series_sum xs.
Proof. reflexivity. Qed.

Lemma series_sum_nan (xs : list float) : series_sum (NaN :: xs) = series_sum xs.
Proof. reflexivity. Qed.

Section WeightedAverage.

Variable col : ValuedAsset -> Q.
Variables lo hi : Q.

Lemma bounded_where_valued_cons v vs :
  bounded_where_valued col lo hi (v :: vs) -> bounded_where_valued col lo hi vs.
Proof. intros H w Hw. apply H, list_elem_of_further, Hw. Qed.

Lemma weighted_sum_bounds (vs : list ValuedAsset) :
  bounded_where_valued col lo hi vs ->
  lo * series_sum (Value_USD <$> vs)
    <= series_sum ((fun v : ValuedAsset => fmul (Fin (col v)) (Value_USD v)) <$> vs) /\
  series_sum ((fun v : ValuedAsset => fmul (Fin (col v)) (Value_USD v)) <$> vs)
    <= hi * series_sum (Value_USD <$> vs).
Proof.
  induction vs as [| v vs IH]; intros Hb.
  - cbn. lra.
  - specialize (IH (bounded_where_valued_cons _ _ Hb)).
    rewrite !fmap_cons.
    pose proof (Hb v (list_elem_of_here _ _)) as Hv.
    destruct (Value_USD v) as [| x]; [exact IH |].
    change (fmul (Fin (col v)) (Fin x)) with (Fin (col v * x)).
    rewrite !series_sum_fin.
    destruct (Hv x eq_refl) as [Hx Hcol]. destruct IH as [IHlo IHhi].
    destruct (Qlt_le_dec 0 x) as [Hpos | Hle].
    + destruct (Hcol Hpos) as [Hlo Hhi].
      assert (lo * x <= col v * x) by (apply Qmult_le_compat_r; lra).
      assert (col v * x <= hi * x) by (apply Qmult_le_compat_r; lra).
      split; lra.
    + assert (x == 0) as Hz by lra. rewrite Hz. split; lra.
Qed.

End WeightedAverage.

Lemma positive_total_has_positive_value (vs : list ValuedAsset) :
  (forall v : ValuedAsset, v ∈ vs -> forall x, Value_USD v = Fin x -> 0 <= x) ->
  0 < series_sum (Value_USD <$> vs) ->
  exists (v : ValuedAsset) (x : Q), v ∈ vs /\ Value_USD v = Fin x /\ 0 < x.
Proof.
  induction vs as [| v vs IH]; intros Hb Hpos.
  - cbn in Hpos. lra.
  - assert (Hb' : forall w : ValuedAsset, w ∈ vs ->
                  forall x, Value_USD w = Fin x -> 0 <= x).
    { intros w Hw. apply Hb, list_elem_of_further, Hw. }
    rewrite fmap_cons in Hpos.
    destruct (Value_USD v) as [| x] eqn:Ev.
    + rewrite series_sum_nan in Hpos.
      destruct (IH Hb' Hpos) as (w & y & Hw & Ey & Hy).
      exists w, y. split; [apply list_elem_of_further, Hw | auto].
    + rewrite series_sum_fin in Hpos.
      destruct (Qlt_le_dec 0 x) as [Hx | Hx].
      * exists v, x. split; [apply list_elem_of_here | auto].
      * destruct (IH Hb') as (w & y & Hw & Ey & Hy); [lra |].
        exists w, y. split; [apply list_elem_of_further, Hw | auto].
Qed.

(** With non-negative values that are positive only on held assets, and
    a positive total, a weighted metric lies in the range of its column
    over the held assets. *)
Lemma guarded_weighted_within (col : ValuedAsset -> Q) (vs : list ValuedAsset) :
  (forall v : ValuedAsset, v ∈ vs -> forall x, Value_USD v = Fin x ->
     0 <= x /\ (0 < x -> 0 < Holding v)) ->
  0 < series_sum (Value_USD <$> vs) ->
  within_held_range col vs (guarded_weighted col vs).
Proof.
  intros Hval Hpos.
  destruct (positive_total_has_positive_value vs) as (v0 & x0 & Hv0 & Ex0 & Hx0);
    [intros v Hv x Ex; apply (Hval v Hv x Ex) | exact Hpos |].
  assert (Hheld : col v0 ∈ col <$> filter (fun v : ValuedAsset => 0 < Holding v) vs).
  { apply list_elem_of_fmap_2, list_elem_of_filter. split; [| exact Hv0].
    apply (Hval v0 Hv0 x0 Ex0), Hx0. }
  destruct (col_min_max_defined _ _ Hheld) as (lo & hi & Hlo & Hhi).
  assert (Hb : bounded_where_valued col lo hi vs).
  { intros v Hv x Ex. destruct (Hval v Hv x Ex) as [Hx Hh].
    split; [exact Hx |]. intros Hxpos.
    assert (col v ∈ col <$> filter (fun v : ValuedAsset => 0 < Holding v) vs).
    { apply list_elem_of_fmap_2, list_elem_of_filter. auto. }
    split; [eapply col_min_le | eapply col_max_ge]; eauto. }
  destruct (weighted_sum_bounds col lo hi vs Hb) as [Hl Hu].
  rewrite guarded_weighted_positive by exact Hpos.
  eexists; exists lo, hi. split; [reflexivity |].
  split; [exact Hlo | split; [exact Hhi |]].
  split; [apply Qle_shift_div_l | apply Qle_shift_div_r]; assumption.
Qed.

Lemma map_fillna0_nonneg (held : gmap string Q) (k : string) :
  (forall k' q, held !! k' = Some q -> 0 <= q) -> 0 <= map_fillna0 held k.
Proof.
  intros Hheld. unfold map_fillna0.
  destruct (held !! k) as [q |] eqn:E; [eapply Hheld, E | lra].
Qed.

Lemma valued_rows_value (held : gmap string Q) (df : list MergedAsset)
    (v : ValuedAsset) (x : Q) :
  (forall r : MergedAsset, r ∈ df -> forall p, last_price r = Fin p -> 0 <= p) ->
  (forall k q, held !! k = Some q -> 0 <= q) ->
  v ∈ valued_rows held df ->
  Value_USD v = Fin x ->
  0 <= x /\ (0 < x -> 0 < Holding v).
Proof.
  intros Hprice Hheld Hv Ex. unfold valued_rows in Hv.
  apply list_elem_of_fmap in Hv as (r & -> & Hr). cbn in Ex |- *.
  pose proof (map_fillna0_nonneg held (market r) Hheld) as Hh.
  destruct (last_price r) as [| p] eqn:Ep; [discriminate |].
  injection Ex as <-. pose proof (Hprice r Hr p Ep) as Hp.
  split; [apply Qmult_le_0_compat; assumption |].
  intros Hpos. destruct (Qlt_le_dec 0 (map_fillna0 held (market r))) as [H | H];
    [exact H |].
  exfalso. assert (map_fillna0 held (market r) == 0) as Hz by lra.
  rewrite Hz in Hpos. lra.
Qed.

Lemma default_holdings_nonneg (k : string) (q : Q) :
  default_holdings !! k = Some q -> 0 <= q.
Proof.
  unfold default_holdings. intros H.
  repeat (apply lookup_insert_Some in H as [[_ <-] | [_ H]]; [discriminate |]).
  rewrite lookup_empty in H. discriminate.
Qed.


(** Nor does the bound survive a negative price next to a positive
    total value. *)
Example weighted_range_negative_price :
  let df :=
    merge_price_and_esg parse_decimal
      [ Price.mk "AUSDT" (PyNum 1); Price.mk "BUSDT" (PyNum (-1)) ]
      [ Esg.mk "AUSDT" "A" 70 70 70; Esg.mk "BUSDT" "B" 40 40 40 ] in
  let held : gmap string Q := <["AUSDT" := 2]> (<["BUSDT" := 1]> ∅) in
  let m := (calculate_portfolio_metrics df (Some held)).2 in
  total_value m == 1 /\ exists w, weighted_esg m = Fin w /\ w == 100.
Proof.
  split; [vm_compute; reflexivity |].
  eexists. split; vm_compute; reflexivity.
Qed.

(** *** The bound under rounded arithmetic *)

Lemma calculate_portfolio_metrics_exact (df : list MergedAsset)
    (holdings_dict : option (gmap string Q)) :
  calculate_portfolio_metrics_rounded Qmult Qdiv series_sum df holdings_dict
  = calculate_portfolio_metrics df holdings_dict.
Proof. reflexivity. Qed.

Lemma Qmult_le_nonneg_l (z x y : Q) : 0 <= z -> x <= y -> z * x <= z * y.
Proof.
  intros Hz Hxy. rewrite (Qmult_comm z x), (Qmult_comm z y).
  apply Qmult_le_compat_r; assumption.
Qed.

Lemma pow_pos (x : Q) (n : nat) : 0 < x -> 0 < pow x n.
Proof.
  intros Hx. induction n as [| n IH]; cbn [pow]; [lra |].
  apply Qmult_lt_0_compat; assumption.
Qed.

Lemma pow_le_1 (x : Q) (n : nat) : 0 <= x -> x <= 1 -> pow x n <= 1.
Proof.
  intros H0 H1. induction n as [| n IH]; cbn [pow]; [lra |].
  assert (0 <= pow x n).
  { clear IH. induction n as [| n IHn]; cbn [pow]; [lra |].
    apply Qmult_le_0_compat; assumption. }
  assert (x * pow x n <= 1 * pow x n) by (apply Qmult_le_compat_r; assumption).
  lra.
Qed.

Lemma pow_ge_1 (x : Q) (n : nat) : 1 <= x -> 1 <= pow x n.
Proof.
  intros H1. induction n as [| n IH]; cbn [pow]; [lra |].
  assert (1 * pow x n <= x * pow x n) by (apply Qmult_le_compat_r; lra).
  lra.
Qed.

Lemma series_sum_nonneg (xs : list float) :
  (forall x, Fin x ∈ xs -> 0 <= x) -> 0 <= series_sum xs.
Proof.
  induction xs as [| [| x] xs IH]; intros Hxs.
  - cbn. lra.
  - rewrite series_sum_nan. apply IH. intros y Hy.
    apply Hxs, list_elem_of_further, Hy.
  - rewrite series_sum_fin.
    assert (0 <= x) by apply Hxs, list_elem_of_here.
    assert (0 <= series_sum xs).
    { apply IH. intros y Hy. apply Hxs, list_elem_of_further, Hy. }
    lra.
Qed.

(** The last step of the bound, on numbers. *)
Lemma rounded_ratio_upper (u a b hi D Dh M P Nh w : Q) :
  0 <= u -> 0 < a -> 0 < b -> 0 <= hi ->
  a * D <= Dh -> 0 < Dh ->
  Nh <= b * P ->
  P <= (1 + u) * M ->
  M <= hi * D ->
  w <= (1 + u) * (Nh / Dh) ->
  w <= hi * ((1 + u) * (1 + u) * b / a).
Proof.
  intros Hu Ha Hb Hhi HDh HDhpos HNh HP HMhi Hw.
  assert (H1 : b * P <= b * ((1 + u) * M))
    by (apply Qmult_le_nonneg_l; [lra | assumption]).
  assert (H2 : b * ((1 + u) * M) <= b * ((1 + u) * (hi * D))).
  { apply Qmult_le_nonneg_l; [lra |]. apply Qmult_le_nonneg_l; [lra | assumption]. }
  assert (H4 : Nh * a <= b * (1 + u) * hi * Dh).
  { assert (Nh <= b * ((1 + u) * (hi * D))) by lra.
    assert (Nh * a <= b * ((1 + u) * (hi * D)) * a)
      by (apply Qmult_le_compat_r; lra).
    assert (b * (1 + u) * (hi * (a * D)) <= b * (1 + u) * (hi * Dh)).
    { apply Qmult_le_nonneg_l; [apply Qmult_le_0_compat; lra |].
      apply Qmult_le_nonneg_l; assumption. }
    lra. }
  assert (H5 : Nh / Dh <= b * (1 + u) * hi / a).
  { apply Qle_shift_div_r; [assumption |].
    setoid_replace (b * (1 + u) * hi / a * Dh)
      with ((b * (1 + u) * hi * Dh) / a) using relation Qeq by (field; lra).
    apply Qle_shift_div_l; assumption. }
  assert (H6 : (1 + u) * (Nh / Dh) <= (1 + u) * (b * (1 + u) * hi / a))
    by (apply Qmult_le_nonneg_l; [lra | assumption]).
  setoid_replace (hi * ((1 + u) * (1 + u) * b / a))
    with ((1 + u) * (b * (1 + u) * hi / a)) using relation Qeq by (field; lra).
  lra.
Qed.

Lemma rounded_ratio_lower (u a b lo D Dh M P Nh w : Q) :
  0 <= u -> u < 1 -> 0 < a -> 0 < b -> 0 <= lo ->
  Dh <= b * D -> 0 < Dh ->
  a * P <= Nh ->
  (1 - u) * M <= P ->
  lo * D <= M ->
  (1 - u) * (Nh / Dh) <= w ->
  lo * ((1 - u) * (1 - u) * a / b) <= w.
Proof.
  intros Hu Hu1 Ha Hb Hlo HDh HDhpos HNh HP HMlo Hw.
  assert (H1 : a * ((1 - u) * M) <= a * P)
    by (apply Qmult_le_nonneg_l; [lra | assumption]).
  assert (H2 : a * ((1 - u) * (lo * D)) <= a * ((1 - u) * M)).
  { apply Qmult_le_nonneg_l; [lra |]. apply Qmult_le_nonneg_l; [lra | assumption]. }
  assert (H4 : a * (1 - u) * lo * Dh <= Nh * b).
  { assert (a * ((1 - u) * (lo * D)) <= Nh) by lra.
    assert (a * ((1 - u) * (lo * D)) * b <= Nh * b)
      by (apply Qmult_le_compat_r; lra).
    assert (a * (1 - u) * (lo * Dh) <= a * (1 - u) * (lo * (b * D))).
    { apply Qmult_le_nonneg_l; [apply Qmult_le_0_compat; lra |].
      apply Qmult_le_nonneg_l; assumption. }
    lra. }
  assert (H5 : a * (1 - u) * lo / b <= Nh / Dh).
  { apply Qle_shift_div_l; [assumption |].
    setoid_replace (a * (1 - u) * lo / b * Dh)
      with ((a * (1 - u) * lo * Dh) / b) using relation Qeq by (field; lra).
    apply Qle_shift_div_r; assumption. }
  assert (H6 : (1 - u) * (a * (1 - u) * lo / b) <= (1 - u) * (Nh / Dh))
    by (apply Qmult_le_nonneg_l; [lra | assumption]).
  setoid_replace (lo * ((1 - u) * (1 - u) * a / b))
    with ((1 - u) * (a * (1 - u) * lo / b)) using relation Qeq by (field; lra).
  lra.
Qed.

Section RoundedBound.

Variable u : Q.
Variables fl_mul fl_div : Q -> Q -> Q.
Variable fl_sum : list float -> Q.
Hypothesis u_nonneg : 0 <= u.
Hypothesis u_small : u < 1.
Hypothesis rounding : rounds_within u fl_mul fl_div fl_sum.

Lemma fl_mul_bounds (x y : Q) :
  0 <= x -> 0 <= y ->
  (1 - u) * (x * y) <= fl_mul x y /\ fl_mul x y <= (1 + u) * (x * y).
Proof. apply rounding. Qed.

Lemma fl_mul_nonneg (x y : Q) : 0 <= x -> 0 <= y -> 0 <= fl_mul x y.
Proof.
  intros Hx Hy. destruct (fl_mul_bounds x y Hx Hy) as [Hlo _].
  assert (0 <= x * y) by (apply Qmult_le_0_compat; assumption).
  assert (0 <= (1 - u) * (x * y)) by (apply Qmult_le_0_compat; lra).
  lra.
Qed.

Lemma calculate_portfolio_metrics_rounded_unfold (df : list MergedAsset)
    (holdings_dict : option (gmap string Q)) :
  let valued := valued_rows_rounded fl_mul (effective_holdings holdings_dict) df in
  calculate_portfolio_metrics_rounded fl_mul fl_div fl_sum df holdings_dict =
  (valued,
   mkMetrics (fl_sum (Value_USD <$> valued))
             (guarded_weighted_rounded fl_mul fl_div fl_sum (fun v => ESG_Score v) valued)
             (guarded_weighted_rounded fl_mul fl_div fl_sum (fun v => esg_e v) valued)
             (guarded_weighted_rounded fl_mul fl_div fl_sum (fun v => esg_s v) valued)
             (guarded_weighted_rounded fl_mul fl_div fl_sum (fun v => esg_g v) valued)
             (length (filter (fun v : ValuedAsset => 0 < Holding v) valued))).
Proof.
  unfold calculate_portfolio_metrics_rounded, guarded_weighted_rounded,
    valued_rows_rounded, effective_holdings.
  destruct holdings_dict as [d |];
    match goal with
    | |- context [Qlt_le_dec 0 ?t] => destruct (Qlt_le_dec 0 t)
    end; reflexivity.
Qed.

(** A rounded value is non-negative, and positive only on a held row. *)
Lemma valued_rows_rounded_value (held : gmap string Q) (df : list MergedAsset)
    (v : ValuedAsset) (x : Q) :
  (forall r : MergedAsset, r ∈ df -> forall p, last_price r = Fin p -> 0 <= p) ->
  (forall k q, held !! k = Some q -> 0 <= q) ->
  v ∈ valued_rows_rounded fl_mul held df ->
  Value_USD v = Fin x ->
  0 <= x /\ (0 < x -> 0 < Holding v).
Proof.
  intros Hprice Hheld Hv Ex. unfold valued_rows_rounded in Hv.
  apply list_elem_of_fmap in Hv as (r & -> & Hr). cbn in Ex |- *.
  pose proof (map_fillna0_nonneg held (market r) Hheld) as Hh.
  destruct (last_price r) as [| p] eqn:Ep; [discriminate |].
  injection Ex as <-. pose proof (Hprice r Hr p Ep) as Hp.
  split; [apply fl_mul_nonneg; assumption |].
  intros Hpos. destruct (Qlt_le_dec 0 (map_fillna0 held (market r))) as [H | H];
    [exact H |].
  exfalso. assert (map_fillna0 held (market r) == 0) as Hz by lra.
  destruct (fl_mul_bounds _ _ Hh Hp) as [_ Hup].
  rewrite Hz in Hup at 2. lra.
Qed.

(** The rounded products against the exact ones, summed. *)
Lemma rounded_products (col : ValuedAsset -> Q) (vs : list ValuedAsset) :
  (forall v : ValuedAsset, v ∈ vs -> 0 <= col v) ->
  (forall v : ValuedAsset, v ∈ vs -> forall x, Value_USD v = Fin x -> 0 <= x) ->
  let exact :=
    series_sum ((fun v : ValuedAsset => fmul (Fin (col v)) (Value_USD v)) <$> vs) in
  let rounded :=
    (fun v : ValuedAsset => fmul_rounded fl_mul (Fin (col v)) (Value_USD v)) <$> vs in
  (forall x, Fin x ∈ rounded -> 0 <= x) /\
  (1 - u) * exact <= series_sum rounded /\
  series_sum rounded <= (1 + u) * exact.
Proof.
  induction vs as [| v vs IH]; intros Hcol Hval.
  - cbn. split; [intros x H; inversion H | split; lra].
  - destruct IH as (IHnn & IHlo & IHhi).
    { intros w Hw. apply Hcol, list_elem_of_further, Hw. }
    { intros w Hw. apply Hval, list_elem_of_further, Hw. }
    pose proof (Hcol v (list_elem_of_here _ _)) as Hc.
    pose proof (Hval v (list_elem_of_here _ _)) as Hx.
    cbn zeta in *. rewrite !fmap_cons. cbn beta.
    destruct (Value_USD v) as [| x].
    + rewrite fmul_nan_r. change (fmul_rounded fl_mul (Fin (col v)) NaN) with NaN.
      rewrite !series_sum_nan. split; [| split; assumption].
      intros y Hy. apply elem_of_cons in Hy as [Hy | Hy]; [discriminate | auto].
    + rewrite fmul_fin.
      change (fmul_rounded fl_mul (Fin (col v)) (Fin x)) with (Fin (fl_mul (col v) x)).
      rewrite !series_sum_fin.
      destruct (fl_mul_bounds (col v) x Hc (Hx x eq_refl)) as [Hlo Hhi].
      split; [| split; lra].
      intros y Hy. apply elem_of_cons in Hy as [[= ->] | Hy]; [| auto].
      apply fl_mul_nonneg; auto.
Qed.

Lemma guarded_weighted_rounded_within (col : ValuedAsset -> Q)
    (vs : list ValuedAsset) :
  (forall v : ValuedAsset, v ∈ vs -> 0 <= col v) ->
  (forall v : ValuedAsset, v ∈ vs -> forall x, Value_USD v = Fin x ->
     0 <= x /\ (0 < x -> 0 < Holding v)) ->
  0 < fl_sum (Value_USD <$> vs) ->
  within_held_range_rounded u col vs
    (guarded_weighted_rounded fl_mul fl_div fl_sum col vs).
Proof.
  intros Hcol Hval Hpos.
  destruct rounding as (_ & Hdiv & Hsum).
  assert (Hvalnn : forall x, Fin x ∈ Value_USD <$> vs -> 0 <= x).
  { intros x Hx. apply list_elem_of_fmap in Hx as (v & Ev & Hv).
    apply (Hval v Hv x). congruence. }
  destruct (Hsum (Value_USD <$> vs) Hvalnn) as [HDlo HDhi].
  rewrite length_fmap in HDlo, HDhi.
  set (a := pow (1 - u) (length vs - 1)) in *.
  set (b := pow (1 + u) (length vs - 1)) in *.
  assert (Ha : 0 < a) by (apply pow_pos; lra).
  assert (Hb : 0 < b) by (apply pow_pos; lra).
  set (D := series_sum (Value_USD <$> vs)) in *.
  set (Dh := fl_sum (Value_USD <$> vs)) in *.
  assert (HD : 0 < D).
  { destruct (Qlt_le_dec 0 D) as [H | H]; [exact H |]. exfalso.
    assert (b * D <= b * 0) by (apply Qmult_le_nonneg_l; lra). lra. }
  destruct (positive_total_has_positive_value vs) as (v0 & x0 & Hv0 & Ex0 & Hx0);
    [intros v Hv x Ex; apply (Hval v Hv x Ex) | exact HD |].
  assert (Hheld : col v0 ∈ col <$> filter (fun v : ValuedAsset => 0 < Holding v) vs).
  { apply list_elem_of_fmap_2, list_elem_of_filter. split; [| exact Hv0].
    apply (Hval v0 Hv0 x0 Ex0), Hx0. }
  destruct (col_min_max_defined _ _ Hheld) as (lo & hi & Hlo & Hhi).
  assert (Hlo0 : 0 <= lo).
  { destruct (col <$> filter (fun v : ValuedAsset => 0 < Holding v) vs)
      as [| c cs] eqn:E; [discriminate |].
    cbn in Hlo. injection Hlo as <-.
    assert (Hall : forall c', c' ∈ c :: cs -> 0 <= c').
    { intros c' Hc'. rewrite <- E in Hc'.
      apply list_elem_of_fmap in Hc' as (v & -> & Hv).
      apply list_elem_of_filter in Hv as [_ Hv]. apply Hcol, Hv. }
    clear E Hhi Hheld. revert Hall. generalize c.
    induction cs as [| c' cs IHcs]; intros c1 Hall; cbn [foldr].
    - apply Hall, list_elem_of_here.
    - apply Q.min_glb.
      + apply Hall, list_elem_of_further, list_elem_of_here.
      + apply IHcs. intros c2 Hc2. apply Hall.
        apply elem_of_cons in Hc2 as [-> | Hc2];
          [apply list_elem_of_here | do 2 apply list_elem_of_further; exact Hc2]. }
  assert (Hlohi : lo <= hi).
  { eapply Qle_trans; [eapply col_min_le | eapply col_max_ge]; eauto. }
  assert (Hb' : bounded_where_valued col lo hi vs).
  { intros v Hv x Ex. destruct (Hval v Hv x Ex) as [Hx Hh].
    split; [exact Hx |]. intros Hxpos.
    assert (col v ∈ col <$> filter (fun v : ValuedAsset => 0 < Holding v) vs).
    { apply list_elem_of_fmap_2, list_elem_of_filter. auto. }
    split; [eapply col_min_le | eapply col_max_ge]; eauto. }
  destruct (weighted_sum_bounds col lo hi vs Hb') as [HMlo HMhi].
  destruct (rounded_products col vs Hcol (fun v Hv x Ex => proj1 (Hval v Hv x Ex)))
    as (Hprodnn & HPlo & HPhi).
  destruct (Hsum _ Hprodnn) as [HNlo HNhi]. rewrite length_fmap in HNlo, HNhi.
  fold a b D in HNlo, HNhi, HMlo, HMhi.
  set (M := series_sum
              ((fun v : ValuedAsset => fmul (Fin (col v)) (Value_USD v)) <$> vs)) in *.
  set (P := series_sum
              ((fun v : ValuedAsset => fmul_rounded fl_mul (Fin (col v)) (Value_USD v))
                 <$> vs)) in *.
  set (Nh := fl_sum
               ((fun v : ValuedAsset => fmul_rounded fl_mul (Fin (col v)) (Value_USD v))
                  <$> vs)) in *.
  assert (HP0 : 0 <= P) by (apply series_sum_nonneg, Hprodnn).
  assert (HNh0 : 0 <= Nh).
  { assert (0 <= a * P) by (apply Qmult_le_0_compat; lra). lra. }
  destruct (Hdiv Nh Dh HNh0 Hpos) as [Hwlo Hwhi].
  unfold guarded_weighted_rounded, weighted_rounded, np_div_rounded.
  fold Dh Nh.
  destruct (Qlt_le_dec 0 Dh) as [_ | Hle]; [| exfalso; lra].
  destruct (Qeq_bool Dh 0) eqn:E; [apply Qeq_bool_iff in E; exfalso; lra |].
  unfold within_held_range_rounded. cbn zeta. fold a b.
  exists (fl_div Nh Dh), lo, hi.
  split; [reflexivity | split; [exact Hlo | split; [exact Hhi |]]].
  split.
  - apply (rounded_ratio_lower u a b lo D Dh M P Nh); assumption.
  - apply (rounded_ratio_upper u a b hi D Dh M P Nh); try assumption. lra.
Qed.

End RoundedBound.


Lemma rounds_within_example :
  rounds_within float64_u mul_rounded_up div_rounded_down series_sum.
Proof.
  assert (Hu : 0 <= float64_u /\ float64_u < 1) by (split; [discriminate | reflexivity]).
  destruct Hu as [Hu Hu1]. unfold rounds_within, mul_rounded_up, div_rounded_down.
  split; [| split].
  - intros x y Hx Hy. assert (0 <= x * y) by (apply Qmult_le_0_compat; assumption).
    split; [apply Qmult_le_compat_r; lra | lra].
  - intros x y Hx Hy.
    assert (0 <= x / y) by (apply Qle_shift_div_l; [assumption | lra]).
    split; [lra | apply Qmult_le_compat_r; lra].
  - intros xs Hxs. pose proof (series_sum_nonneg xs Hxs) as HS.
    pose proof (pow_le_1 (1 - float64_u) (length xs - 1)) as Hlo.
    pose proof (pow_ge_1 (1 + float64_u) (length xs - 1)) as Hhi.
    split.
    + assert (pow (1 - float64_u) (length xs - 1) * series_sum xs
              <= 1 * series_sum xs) by (apply Qmult_le_compat_r; [apply Hlo; lra | exact HS]).
      lra.
    + assert (1 * series_sum xs
              <= pow (1 + float64_u) (length xs - 1) * series_sum xs)
        by (apply Qmult_le_compat_r; [apply Hhi; lra | exact HS]).
      lra.
Qed.


(** The rounded metric of the example is not the exact one: it is off
    from 2210000/53000, within the allowance. *)
Example example_weighted_esg_rounded :
  exists w,
    weighted_esg
      (calculate_portfolio_metrics_rounded mul_rounded_up div_rounded_down series_sum
         example_merged (Some example_holdings)).2 = Fin w /\
    ~ w == 2210000 / 53000.
Proof. eexists. split; [vm_compute; reflexivity | vm_compute; discriminate]. Qed.

(** ** The insights *)

Lemma argmax_from_first (xs pre : list Q) (best_i : nat) (best : Q) :
  first_max id pre best_i best ->
  exists v : Q,
    first_max id (pre ++ xs) (argmax_from best_i best (length pre) xs) v.
Proof.
  revert pre best_i best.
  induction xs as [| x rest IH]; intros pre best_i best (Hat & Hmax & Hfirst).
  - cbn [argmax_from]. rewrite app_nil_r. exists best. repeat split; assumption.
  - cbn [argmax_from].
    replace (pre ++ x :: rest) with ((pre ++ [x]) ++ rest)
      by (rewrite <- app_assoc; reflexivity).
    replace (S (length pre)) with (length (pre ++ [x]))
      by (rewrite length_app; cbn; lia).
    destruct (Qle_bool x best) eqn:E.
    + apply Qle_bool_true in E. apply IH. split; [| split].
      * apply lookup_app_l_Some, Hat.
      * intros w Hw. apply elem_of_app in Hw as [Hw | Hw]; [apply Hmax, Hw |].
        apply list_elem_of_singleton in Hw as ->. exact E.
      * intros j w Hj Hjw. apply (Hfirst j w Hj).
        rewrite lookup_app_l in Hjw; [exact Hjw |].
        apply lookup_lt_Some in Hat. lia.
    + apply Qle_bool_false in E. apply IH. unfold id in *. split; [| split].
      * rewrite lookup_app_r by lia. rewrite Nat.sub_diag. reflexivity.
      * intros w Hw. apply elem_of_app in Hw as [Hw | Hw].
        -- specialize (Hmax w Hw). lra.
        -- apply list_elem_of_singleton in Hw as ->. lra.
      * intros j w Hj Hjw. rewrite lookup_app_l in Hjw by exact Hj.
        apply list_elem_of_lookup_2 in Hjw. specialize (Hmax w Hjw). lra.
Qed.

Lemma idxmax_first (col : list Q) :
  col <> [] ->
  exists (k : nat) (v : Q), idxmax col = Ok k /\ first_max id col k v.
Proof.
  destruct col as [| x rest]; [congruence |]. intros _.
  destruct (argmax_from_first rest [x] 0%nat x) as [v Hfirst].
  { split; [reflexivity | split].
    - intros w Hw. apply list_elem_of_singleton in Hw as ->. unfold id. lra.
    - intros j w Hj. lia. }
  exists (argmax_from 0 x 1 rest), v. split; [reflexivity | exact Hfirst].
Qed.

Lemma argmin_from_opp (xs : list Q) (best_i : nat) (best : Q) (i : nat) :
  argmin_from best_i best i xs = argmax_from best_i (- best) i (Qopp <$> xs).
Proof.
  revert best_i best i. induction xs as [| x rest IH]; intros best_i best i;
    [reflexivity |].
  rewrite fmap_cons. cbn [argmin_from argmax_from]. rewrite !IH.
  destruct (Qle_bool best x) eqn:E1, (Qle_bool (- x) (- best)) eqn:E2;
    try reflexivity; exfalso;
    first [apply Qle_bool_true in E1 | apply Qle_bool_false in E1];
    first [apply Qle_bool_true in E2 | apply Qle_bool_false in E2]; lra.
Qed.

Lemma idxmin_first (col : list Q) :
  col <> [] ->
  exists (k : nat) (v : Q), idxmin col = Ok k /\ first_min id col k v.
Proof.
  intros Hne.
  destruct (idxmax_first (Qopp <$> col)) as (k & v' & Hk & Hat & Hmax & Hfirst).
  { destruct col; [congruence | discriminate]. }
  rewrite list_lookup_fmap in Hat.
  destruct (col !! k) as [v |] eqn:Ev; [| discriminate].
  injection Hat as <-. exists k, v. split; [| split; [exact Ev | split]].
  - destruct col as [| x rest]; [congruence |].
    cbn in Hk |- *. rewrite argmin_from_opp. exact Hk.
  - intros w Hw. unfold id in *.
    specialize (Hmax (- w) (list_elem_of_fmap_2 Qopp _ _ Hw)). lra.
  - intros j w Hj Hjw. unfold id in *.
    specialize (Hfirst j (- w) Hj). rewrite list_lookup_fmap, Hjw in Hfirst.
    specialize (Hfirst eq_refl). lra.
Qed.

(** Looking the extreme row up in the frame. *)
Lemma first_max_fmap {A : Type} (col : A -> Q) (df : list A) (k : nat) (x : Q) :
  first_max id (col <$> df) k x ->
  exists v : A, df_loc df k = Ok v /\ first_max col df k v.
Proof.
  intros (Hat & Hmax & Hfirst). rewrite list_lookup_fmap in Hat.
  unfold df_loc. destruct (df !! k) as [v |] eqn:Ev; [| discriminate].
  injection Hat as <-. exists v. split; [reflexivity |]. unfold id in *.
  split; [exact Ev | split].
  - intros w Hw. apply Hmax, list_elem_of_fmap_2, Hw.
  - intros j w Hj Hjw. apply (Hfirst j (col w) Hj).
    rewrite list_lookup_fmap, Hjw. reflexivity.
Qed.

Lemma first_min_fmap {A : Type} (col : A -> Q) (df : list A) (k : nat) (x : Q) :
  first_min id (col <$> df) k x ->
  exists v : A, df_loc df k = Ok v /\ first_min col df k v.
Proof.
  intros (Hat & Hmin & Hfirst). rewrite list_lookup_fmap in Hat.
  unfold df_loc. destruct (df !! k) as [v |] eqn:Ev; [| discriminate].
  injection Hat as <-. exists v. split; [reflexivity |]. unfold id in *.
  split; [exact Ev | split].
  - intros w Hw. apply Hmin, list_elem_of_fmap_2, Hw.
  - intros j w Hj Hjw. apply (Hfirst j (col w) Hj).
    rewrite list_lookup_fmap, Hjw. reflexivity.
Qed.

Example example_insights :
  get_esg_insights format_tenths format_tenths example_valued =
  Ok [ "🏆 Highest ESG Score: ETH (70.0)";
       "⚠️ Lowest ESG Score: BTC (40.0)";
       "📊 1/2 assets have ESG scores ≥ 70";
       "🌱 Environmental Leader: ETH (70.0/100)" ].
Proof. vm_compute. reflexivity. Qed.

(** First occurrence wins a tie, for the best and for the worst. *)
Example insights_tie :
  let row (sym : string) : ValuedAsset :=
    mkValued (merged_row parse_decimal (Price.mk sym (PyNum 1))
                         (Esg.mk sym sym 50 60 70)) 0 (Fin 0) in
  get_esg_insights format_tenths format_tenths [ row "FIRST"; row "SECOND" ] =
  Ok [ "🏆 Highest ESG Score: FIRST (60.0)";
       "⚠️ Lowest ESG Score: FIRST (60.0)";
       "📊 0/2 assets have ESG scores ≥ 70";
       "🌱 Environmental Leader: FIRST (50.0/100)" ].
Proof. vm_compute. reflexivity. Qed.

(** Against C2 as stated: on the empty table the exception is not an
    EmptyInputError. *)
Lemma insights_empty_counterexample :
  ~ fails_with "EmptyInputError" (get_esg_insights format_tenths format_tenths []).
Proof. intros (e & He & Hcls). cbn in He. injection He as <-. discriminate. Qed.

(** C2, as the code has it: on the empty valued table [get_esg_insights]
    has no guard of its own; it fails in the lookup of the maximum of the
    empty score column, with the ValueError of that lookup, and returns no
    insights. *)
Theorem insights_empty_fails (format_1f format_num : Q -> string) :
  fails_with "ValueError" (get_esg_insights format_1f format_num []) /\
  forall insights, get_esg_insights format_1f format_num [] <> Ok insights.
Proof.
  split; [eexists; split; reflexivity | discriminate].
Qed.

(** C8: on a non-empty valued table [get_esg_insights] returns exactly
    four strings, in the order best ESG, worst ESG, threshold count,
    environmental leader: the first names the asset of greatest
    [esg_score], the second the asset of least [esg_score], the third
    counts the assets with [esg_score >= 70] out of all assets, the fourth
    names the asset of greatest [esg_e]; among equal extremes the first in
    input order is taken. *)
Theorem insights_four_facts (format_1f format_num : Q -> string)
    (df : list ValuedAsset) :
  df <> [] ->
  exists (i j k : nat) (best worst env : ValuedAsset),
    first_max (fun v : ValuedAsset => ESG_Score v) df i best /\
    first_min (fun v : ValuedAsset => ESG_Score v) df j worst /\
    first_max (fun v : ValuedAsset => esg_e v) df k env /\
    get_esg_insights format_1f format_num df =
    Ok [ "🏆 Highest ESG Score: " +:+ name best +:+ " ("
           +:+ format_1f (ESG_Score best) +:+ ")";
         "⚠️ Lowest ESG Score: " +:+ name worst +:+ " ("
           +:+ format_1f (ESG_Score worst) +:+ ")";
         "📊 "
           +:+ pretty (length (filter (fun v : ValuedAsset => 70 <= ESG_Score v) df))
           +:+ "/" +:+ pretty (length df) +:+ " assets have ESG scores ≥ 70";
         "🌱 Environmental Leader: " +:+ name env +:+ " ("
           +:+ format_num (esg_e env) +:+ "/100)" ].
Proof.
  intros Hne.
  assert (Hcol : forall col : ValuedAsset -> Q, col <$> df <> []).
  { intros col H. apply fmap_nil_inv in H. contradiction. }
  destruct (idxmax_first _ (Hcol (fun v : ValuedAsset => ESG_Score v)))
    as (i & x & Hi & Hx).
  destruct (first_max_fmap _ _ _ _ Hx) as (best & Hbest & Hbest_max).
  destruct (idxmin_first _ (Hcol (fun v : ValuedAsset => ESG_Score v)))
    as (j & y & Hj & Hy).
  destruct (first_min_fmap _ _ _ _ Hy) as (worst & Hworst & Hworst_min).
  destruct (idxmax_first _ (Hcol (fun v : ValuedAsset => esg_e v)))
    as (k & z & Hk & Hz).
  destruct (first_max_fmap _ _ _ _ Hz) as (env & Henv & Henv_max).
  exists i, j, k, best, worst, env.
  split; [exact Hbest_max | split; [exact Hworst_min | split; [exact Henv_max |]]].
  unfold get_esg_insights.
  rewrite Hi. cbn [bind]. rewrite Hbest. cbn [bind].
  rewrite Hj. cbn [bind]. rewrite Hworst. cbn [bind].
  rewrite Hk. cbn [bind]. rewrite Henv. cbn [bind].
  reflexivity.
Qed.

Lemma insights_four_facts_witness :
  exists (i j k : nat) (best worst env : ValuedAsset),
    first_max (fun v : ValuedAsset => ESG_Score v) example_valued i best /\
    first_min (fun v : ValuedAsset => ESG_Score v) example_valued j worst /\
    first_max (fun v : ValuedAsset => esg_e v) example_valued k env /\
    get_esg_insights format_tenths format_tenths example_valued =
    Ok [ "🏆 Highest ESG Score: " +:+ name best +:+ " ("
           +:+ format_tenths (ESG_Score best) +:+ ")";
         "⚠️ Lowest ESG Score: " +:+ name worst +:+ " ("
           +:+ format_tenths (ESG_Score worst) +:+ ")";
         "📊 "
           +:+ pretty (length (filter (fun v : ValuedAsset => 70 <= ESG_Score v)
                                      example_valued))
           +:+ "/" +:+ pretty (length example_valued)
           +:+ " assets have ESG scores ≥ 70";
         "🌱 Environmental Leader: " +:+ name env +:+ " ("
           +:+ format_tenths (esg_e env) +:+ "/100)" ].
Proof.
  apply (insights_four_facts format_tenths format_tenths example_valued).
  vm_compute. discriminate.
Defined.

(** ** Further properties of the specification *)

(** X1 (score bounds): a merged asset whose three component scores lie in
    [0, 100] has its [esg_score] in [0, 100]. *)
Theorem merged_score_bounds (parse_float : string -> option Q)
    (price_df : list (Price.t pyval)) (esg_df : list Esg.t) (a : MergedAsset) :
  a ∈ merge_price_and_esg parse_float price_df esg_df ->
  0 <= esg_e a /\ esg_e a <= 100 ->
  0 <= esg_s a /\ esg_s a <= 100 ->
  0 <= esg_g a /\ esg_g a <= 100 ->
  0 <= ESG_Score a /\ ESG_Score a <= 100.
Proof.
  intros Ha. apply elem_of_merge in Ha as (p & e & _ & _ & _ & ->).
  cbn. intros [He1 He2] [Hs1 Hs2] [Hg1 Hg2].
  split; [apply Qle_shift_div_l | apply Qle_shift_div_r]; lra.
Qed.

Lemma merged_score_bounds_witness :
  let a := merged_row parse_decimal (Price.mk "BTCUSDT" (PyStr "50000.0"))
                      (Esg.mk "BTCUSDT" "BTC" 40 40 40) in
  0 <= ESG_Score a /\ ESG_Score a <= 100.
Proof.
  apply (merged_score_bounds parse_decimal example_prices example_esg).
  - vm_compute. apply list_elem_of_here.
  - split; discriminate.
  - split; discriminate.
  - split; discriminate.
Defined.

(** [num_holdings] is the number of assets with a positive holding, and
    [total_value] the sum of the values of all assets. *)
Theorem metrics_counts (df : list MergedAsset)
    (holdings_dict : option (gmap string Q)) :
  let valued := (calculate_portfolio_metrics df holdings_dict).1 in
  let m := (calculate_portfolio_metrics df holdings_dict).2 in
  num_holdings m = length (filter (fun v : ValuedAsset => 0 < Holding v) valued) /\
  total_value m = series_sum (Value_USD <$> valued).
Proof.
  rewrite calculate_portfolio_metrics_unfold. split; reflexivity.
Qed.

(** ** Ratings and components *)

(** X4: a label tells its band: the rating of a score is a given label
    exactly when the score lies in that label's band. *)
Theorem categorize_label_iff_band (score : Q) :
  (categorize_esg_score score = "A+ (Excellent)" <-> 80 <= score) /\
  (categorize_esg_score score = "A (Very Good)" <-> 70 <= score /\ score < 80) /\
  (categorize_esg_score score = "B+ (Good)" <-> 60 <= score /\ score < 70) /\
  (categorize_esg_score score = "B (Fair)" <-> 50 <= score /\ score < 60) /\
  (categorize_esg_score score = "C+ (Below Average)" <-> 40 <= score /\ score < 50) /\
  (categorize_esg_score score = "C (Poor)" <-> score < 40).
Proof.
  unfold categorize_esg_score.
  split_thresholds; repeat split; intros;
    repeat match goal with H : _ /\ _ |- _ => destruct H end;
    first [reflexivity | discriminate | lra | exfalso; lra].
Qed.

(** ** The merge and the order of the price feed *)

Lemma merge_cells_of_one (parse_float : string -> option Q)
    (p : Price.t pyval) (esg_df : list Esg.t) :
  NoDup (Esg.market <$> esg_df) ->
  (fun a : MergedAsset => (market a, last_price a))
    <$> (merged_row parse_float p
           <$> filter (fun e => Price.market p = Esg.market e) esg_df)
  = filter (fun kp : string * float => kp.1 ∈ Esg.market <$> esg_df)
           [(Price.market p, to_numeric_coerce parse_float (Price.last_price p))].
Proof.
  induction esg_df as [| e es IH]; intros Hnd.
  - rewrite filter_one. case_decide as Hin; [| reflexivity]. inversion Hin.
  - rewrite fmap_cons in Hnd. apply NoDup_cons in Hnd as [Hfresh Hnd].
    specialize (IH Hnd). rewrite filter_one in IH |- *. cbn [fst] in IH |- *.
    rewrite filter_cons.
    destruct (decide (Price.market p = Esg.market e)) as [Hk | Hk].
    + rewrite !fmap_cons, IH.
      cbn [merged_row market last_price merged_base scored_base].
      rewrite decide_False by (rewrite Hk; exact Hfresh).
      rewrite decide_True by (rewrite Hk; apply list_elem_of_here).
      reflexivity.
    + rewrite IH. case_decide as Hin.
      * rewrite decide_True by (apply list_elem_of_further; exact Hin). reflexivity.
      * rewrite decide_False; [reflexivity |].
        rewrite fmap_cons. intros Hin'. apply elem_of_cons in Hin' as [Heq | Hin'];
          [exact (Hk Heq) | exact (Hin Hin')].
Qed.

(** X6: with unique ESG symbols the merged table follows the price feed: its
    (symbol, price) column pairs are those of the feed, prices coerced, in
    the feed's order, less the records whose symbol has no ESG entry.
    Repeated symbols of the feed are kept as they come. *)
Theorem merge_follows_price_feed (parse_float : string -> option Q)
    (price_df : list (Price.t pyval)) (esg_df : list Esg.t) :
  NoDup (Esg.market <$> esg_df) ->
  (fun a : MergedAsset => (market a, last_price a))
    <$> merge_price_and_esg parse_float price_df esg_df
  = filter (fun kp : string * float => kp.1 ∈ Esg.market <$> esg_df)
      ((fun p => (Price.market p, to_numeric_coerce parse_float (Price.last_price p)))
         <$> price_df).
Proof.
  intros Hnd. rewrite merge_rows.
  induction price_df as [| p rest IH]; [reflexivity |].
  rewrite bind_cons, fmap_app, IH, merge_cells_of_one by exact Hnd.
  rewrite fmap_cons.
  rewrite <- filter_app. reflexivity.
Qed.

Lemma merge_follows_price_feed_witness :
  (fun a : MergedAsset => (market a, last_price a)) <$> example_merged
  = filter (fun kp : string * float => kp.1 ∈ Esg.market <$> example_esg)
      ((fun p => (Price.market p, to_numeric_coerce parse_decimal (Price.last_price p)))
         <$> example_prices).
Proof.
  apply (merge_follows_price_feed parse_decimal example_prices example_esg).
  apply (bool_decide_unpack _). vm_compute. exact I.
Defined.

(** ** Holdings and metrics *)

(** A row is counted as held only if the holdings map has its symbol. *)
Lemma held_row_in_map (held : gmap string Q) (df : list MergedAsset) (v : ValuedAsset) :
  v ∈ valued_rows held df -> 0 < Holding v -> market v ∈ dom held.
Proof.
  unfold valued_rows. intros Hv Hpos.
  apply list_elem_of_fmap in Hv as (r & -> & _). cbn in Hpos |- *.
  unfold map_fillna0 in Hpos.
  destruct (held !! market r) as [q |] eqn:E; [eapply elem_of_dom_2, E |].
  exfalso. lra.
Qed.

(** X3: with unique symbols in the merged table, [num_holdings] is at most
    the number of entries of the holdings map in force, and at most the
    number of assets. *)
Theorem num_holdings_bounded (df : list MergedAsset)
    (holdings_dict : option (gmap string Q)) :
  NoDup ((fun r : MergedAsset => market r) <$> df) ->
  let m := (calculate_portfolio_metrics df holdings_dict).2 in
  (num_holdings m <= size (effective_holdings holdings_dict))%nat /\
  (num_holdings m <= length df)%nat.
Proof.
  intros Hnd. rewrite calculate_portfolio_metrics_unfold. cbn [snd num_holdings].
  set (held := effective_holdings holdings_dict).
  set (rows := filter (fun v : ValuedAsset => 0 < Holding v) (valued_rows held df)).
  assert (Hmarkets : (fun v : ValuedAsset => market v) <$> valued_rows held df
                     = (fun r : MergedAsset => market r) <$> df).
  { unfold valued_rows. rewrite <- list_fmap_compose. reflexivity. }
  split.
  - assert (Hnd' : NoDup ((fun v : ValuedAsset => market v) <$> rows)).
    { apply (sublist_NoDup _ ((fun v : ValuedAsset => market v) <$> valued_rows held df));
        [rewrite Hmarkets; exact Hnd |].
      apply fmap_sublist, sublist_filter. }
    rewrite <- (length_fmap (fun v : ValuedAsset => market v)).
    rewrite <- (size_list_to_set (C := gset string)) by exact Hnd'.
    rewrite <- (size_dom (D := gset string) held).
    apply subseteq_size. intros k Hk.
    apply elem_of_list_to_set, list_elem_of_fmap in Hk as (v & -> & Hv).
    apply list_elem_of_filter in Hv as [Hpos Hv].
    eapply held_row_in_map; eassumption.
  - etransitivity; [apply length_filter |].
    unfold valued_rows. rewrite length_fmap. reflexivity.
Qed.

Lemma num_holdings_bounded_witness :
  let m := (calculate_portfolio_metrics example_merged None).2 in
  (num_holdings m <= size default_holdings)%nat /\
  (num_holdings m <= length example_merged)%nat.
Proof.
  apply (num_holdings_bounded example_merged None).
  apply (bool_decide_unpack _). vm_compute. exact I.
Defined.

(** Under non-negative holdings a row that is not held has value 0 or a
    missing value. *)
Lemma unheld_value_zero (held : gmap string Q) (df : list MergedAsset)
    (v : ValuedAsset) (x : Q) :
  (forall k q, held !! k = Some q -> 0 <= q) ->
  v ∈ valued_rows held df -> ~ 0 < Holding v -> Value_USD v = Fin x -> x == 0.
Proof.
  intros Hheld Hv Hneg Ex. unfold valued_rows in Hv.
  apply list_elem_of_fmap in Hv as (r & -> & _). cbn in Hneg, Ex.
  pose proof (map_fillna0_nonneg held (market r) Hheld) as Hh.
  destruct (last_price r) as [| p]; [discriminate |]. injection Ex as <-.
  assert (map_fillna0 held (market r) == 0) as Hz.
  { destruct (Qlt_le_dec 0 (map_fillna0 held (market r))); [contradiction | lra]. }
  rewrite Hz. ring.
Qed.

(** ** Insights and the rest of the pipeline *)

Section Insights.

Variable format_1f : Q -> string.
Variable format_num : Q -> string.

(** The insights read the merged columns only: rows re-valued by a map
    [phi] that keeps those columns give the same insights. *)
Lemma get_esg_insights_revalue (phi : ValuedAsset -> ValuedAsset)
    (df : list ValuedAsset) :
  (forall v, valued_base (phi v) = valued_base v) ->
  get_esg_insights format_1f format_num (phi <$> df)
  = get_esg_insights format_1f format_num df.
Proof.
  intros Hphi.
  assert (Hcol : forall col : MergedAsset -> Q,
             (fun v : ValuedAsset => col v) <$> (phi <$> df)
             = (fun v : ValuedAsset => col v) <$> df).
  { intros col. rewrite <- list_fmap_compose. apply list_fmap_ext.
    intros i v _. cbn. rewrite Hphi. reflexivity. }
  assert (Hloc : forall i, df_loc (phi <$> df) i
                           = match df_loc df i with
                             | Ok v => Ok (phi v)
                             | Raise e => Raise e
                             end).
  { intros i. unfold df_loc. rewrite list_lookup_fmap.
    destruct (df !! i); reflexivity. }
  assert (Hcount :
            length (filter (fun v : ValuedAsset => 70 <= ESG_Score v) (phi <$> df))
            = length (filter (fun v : ValuedAsset => 70 <= ESG_Score v) df)).
  { clear Hcol Hloc. induction df as [| v vs IH]; [reflexivity |].
    rewrite fmap_cons, !filter_cons, Hphi.
    destruct (decide (70 <= ESG_Score v)); cbn [length]; rewrite IH; reflexivity. }
  unfold get_esg_insights.
  rewrite (Hcol (fun r => ESG_Score r)), (Hcol (fun r => esg_e r)), Hcount,
    length_fmap.
  destruct (idxmax ((fun v : ValuedAsset => ESG_Score v) <$> df)) as [i |];
    [| reflexivity].
  cbn [bind]. rewrite Hloc. destruct (df_loc df i) as [best |]; [| reflexivity].
  cbn [bind].
  destruct (idxmin ((fun v : ValuedAsset => ESG_Score v) <$> df)) as [j |];
    [| reflexivity].
  cbn [bind]. rewrite Hloc. destruct (df_loc df j) as [worst |]; [| reflexivity].
  cbn [bind].
  destruct (idxmax ((fun v : ValuedAsset => esg_e v) <$> df)) as [k |];
    [| reflexivity].
  cbn [bind]. rewrite Hloc. destruct (df_loc df k) as [env |]; [| reflexivity].
  cbn [bind]. rewrite !Hphi. reflexivity.
Qed.

(** On a non-empty table the insights are four strings, the third built
    from the two counts. *)
Lemma get_esg_insights_shape (df : list ValuedAsset) :
  df <> [] ->
  exists s1 s2 s4 : string,
    get_esg_insights format_1f format_num df =
    Ok [ s1; s2;
         "📊 "
           +:+ pretty (length (filter (fun v : ValuedAsset => 70 <= ESG_Score v) df))
           +:+ "/" +:+ pretty (length df) +:+ " assets have ESG scores ≥ 70";
         s4 ].
Proof.
  intros Hne.
  assert (Hcol : forall col : ValuedAsset -> Q, col <$> df <> []).
  { intros col H. apply fmap_nil_inv in H. contradiction. }
  destruct (idxmax_first _ (Hcol (fun v : ValuedAsset => ESG_Score v)))
    as (i & x & Hi & Hx).
  destruct (first_max_fmap _ _ _ _ Hx) as (best & Hbest & _).
  destruct (idxmin_first _ (Hcol (fun v : ValuedAsset => ESG_Score v)))
    as (j & y & Hj & Hy).
  destruct (first_min_fmap _ _ _ _ Hy) as (worst & Hworst & _).
  destruct (idxmax_first _ (Hcol (fun v : ValuedAsset => esg_e v)))
    as (k & z & Hk & Hz).
  destruct (first_max_fmap _ _ _ _ Hz) as (env & Henv & _).
  unfold get_esg_insights.
  rewrite Hi. cbn [bind]. rewrite Hbest. cbn [bind].
  rewrite Hj. cbn [bind]. rewrite Hworst. cbn [bind].
  rewrite Hk. cbn [bind]. rewrite Henv. cbn [bind].
  eexists; eexists; eexists. reflexivity.
Qed.

End Insights.

(** X7: the insights do not depend on the holdings: whatever the holdings
    map, the valued table of the same merged table gives the same result,
    exception or strings. *)
Theorem insights_independent_of_holdings (format_1f format_num : Q -> string)
    (df : list MergedAsset) (h1 h2 : option (gmap string Q)) :
  get_esg_insights format_1f format_num (calculate_portfolio_metrics df h1).1
  = get_esg_insights format_1f format_num (calculate_portfolio_metrics df h2).1.
Proof.
  rewrite !calculate_portfolio_metrics_unfold. cbn [fst].
  set (held2 := effective_holdings h2).
  rewrite <- (get_esg_insights_revalue format_1f format_num
                (fun v : ValuedAsset =>
                   mkValued v (map_fillna0 held2 (market v))
                            (fmul (Fin (map_fillna0 held2 (market v))) (last_price v))))
    by reflexivity.
  unfold valued_rows. rewrite <- list_fmap_compose. reflexivity.
Qed.

Lemma categorize_rated_A (score : Q) :
  70 <= score <->
  categorize_esg_score score = "A+ (Excellent)" \/
  categorize_esg_score score = "A (Very Good)".
Proof.
  unfold categorize_esg_score.
  split_thresholds; split; intros H;
    first [lra | left; reflexivity | right; reflexivity
          | destruct H; discriminate | exfalso; lra].
Qed.

(** X8: for a table that comes from the merge, the count the third insight
    reports as "ESG scores ≥ 70" is the number of assets rated
    "A+ (Excellent)" or "A (Very Good)". *)
Theorem insight_count_is_rated_A (format_1f format_num : Q -> string)
    (parse_float : string -> option Q)
    (price_df : list (Price.t pyval)) (esg_df : list Esg.t)
    (holdings_dict : option (gmap string Q)) :
  let valued :=
    (calculate_portfolio_metrics
       (merge_price_and_esg parse_float price_df esg_df) holdings_dict).1 in
  valued <> [] ->
  exists s1 s2 s4 : string,
    get_esg_insights format_1f format_num valued =
    Ok [ s1; s2;
         "📊 " +:+ pretty (length (filter rated_A valued))
           +:+ "/" +:+ pretty (length valued) +:+ " assets have ESG scores ≥ 70";
         s4 ].
Proof.
  rewrite calculate_portfolio_metrics_unfold. cbn [fst]. intros Hne.
  destruct (get_esg_insights_shape format_1f format_num _ Hne) as (s1 & s2 & s4 & E).
  exists s1, s2, s4. rewrite E. repeat f_equal.
  generalize (effective_holdings holdings_dict). intros held.
  assert (Hrows : forall v : ValuedAsset,
             v ∈ valued_rows held (merge_price_and_esg parse_float price_df esg_df) ->
             (70 <= ESG_Score v <-> rated_A v)).
  { intros v Hv. unfold valued_rows in Hv.
    apply list_elem_of_fmap in Hv as (a & -> & Ha).
    apply elem_of_merge in Ha as (p & e & _ & _ & _ & ->).
    unfold rated_A. cbn. apply categorize_rated_A. }
  induction (valued_rows held (merge_price_and_esg parse_float price_df esg_df))
    as [| v vs IH]; [reflexivity |].
  assert (IH' := IH (fun w Hw => Hrows w (list_elem_of_further _ _ _ Hw))).
  pose proof (Hrows v (list_elem_of_here _ _)) as Hv.
  rewrite !filter_cons.
  destruct (decide (70 <= ESG_Score v)) as [H1 | H1],
           (decide (rated_A v)) as [H2 | H2];
    cbn [length]; first [rewrite IH'; reflexivity | exfalso; tauto].
Qed.

Lemma insight_count_is_rated_A_witness :
  exists s1 s2 s4 : string,
    get_esg_insights format_tenths format_tenths example_valued =
    Ok [ s1; s2;
         "📊 " +:+ pretty (length (filter rated_A example_valued))
           +:+ "/" +:+ pretty (length example_valued)
           +:+ " assets have ESG scores ≥ 70";
         s4 ].
Proof.
  apply (insight_count_is_rated_A format_tenths format_tenths parse_decimal
           example_prices example_esg (Some example_holdings)).
  vm_compute. discriminate.
Defined.

(** ** The leaderboard: [nlargest] *)

Example nlargest_ties_in_order :
  nlargest 3 (fun p : string * Q => p.2)
           [ ("a", 1); ("b", 7); ("c", 3); ("d", 7); ("e", 3) ]
  = [ ("b", 7); ("d", 7); ("c", 3) ].
Proof. reflexivity. Qed.

Section NLargest.

Context {A : Type} (col : A -> Q).

Lemma insert_desc_perm (x : A) (l : list A) : insert_desc col x l ≡ₚ x :: l.
Proof.
  induction l as [| y l IH]; [reflexivity |]. cbn [insert_desc].
  destruct (Qle_bool (col y) (col x)); [reflexivity |].
  rewrite IH. apply Permutation_swap.
Qed.

Lemma sort_desc_perm (l : list A) : sort_desc col l ≡ₚ l.
Proof.
  induction l as [| x l IH]; [reflexivity |].
  cbn [sort_desc foldr]. fold (sort_desc col l).
  rewrite insert_desc_perm, IH. reflexivity.
Qed.

Lemma insert_desc_sorted (x : A) (l : list A) :
  StronglySorted (fun a b => col b <= col a) l ->
  StronglySorted (fun a b => col b <= col a) (insert_desc col x l).
Proof.
  induction 1 as [| y l Hsorted IH Hall]; cbn [insert_desc].
  - repeat constructor.
  - destruct (Qle_bool (col y) (col x)) eqn:E.
    + apply Qle_bool_true in E. constructor; [constructor; assumption |].
      constructor; [exact E |].
      eapply Forall_impl; [exact Hall |]. cbn. intros z Hz. lra.
    + apply Qle_bool_false in E. constructor; [exact IH |].
      rewrite insert_desc_perm. constructor; [lra | exact Hall].
Qed.

Lemma sort_desc_sorted (l : list A) :
  StronglySorted (fun a b => col b <= col a) (sort_desc col l).
Proof.
  induction l as [| x l IH]; [constructor |].
  cbn [sort_desc foldr]. apply insert_desc_sorted, IH.
Qed.

End NLargest.

(** [nlargest n col df] has [min n (length df)] rows, in descending order
    of the column; together with the rows it leaves out it is a
    rearrangement of [df], and no row left out has a greater value than a
    row kept. *)
Theorem nlargest_selects {A : Type} (n : nat) (col : A -> Q) (df : list A) :
  length (nlargest n col df) = min n (length df) /\
  StronglySorted (fun a b => col b <= col a) (nlargest n col df) /\
  exists rest : list A,
    nlargest n col df ++ rest ≡ₚ df /\
    forall a b, a ∈ nlargest n col df -> b ∈ rest -> col b <= col a.
Proof.
  unfold nlargest.
  pose proof (sort_desc_sorted col df) as Hsorted.
  pose proof (sort_desc_perm col df) as Hperm.
  rewrite <- (take_drop n (sort_desc col df)) in Hsorted.
  apply StronglySorted_app in Hsorted as (Hcross & Htake & _).
  split; [| split; [exact Htake |]].
  - rewrite length_take, (Permutation_length Hperm). reflexivity.
  - exists (drop n (sort_desc col df)). split.
    + rewrite take_drop. exact Hperm.
    + intros a b Ha Hb. apply (Hcross a b Ha Hb).
Qed.

(** ** The largest position *)

Example idxmax_skipna_skips_missing :
  idxmax_skipna [ (0%nat, NaN); (2%nat, Fin 5); (3%nat, Fin 7); (5%nat, Fin 7) ]
  = Ok 3%nat.
Proof. reflexivity. Qed.

Example idxmax_skipna_all_missing :
  idxmax_skipna [ (0%nat, NaN); (1%nat, NaN) ]
  = Raise (Exception "ValueError" "attempt to get argmax of an empty sequence").
Proof. reflexivity. Qed.

Example loc_label_after_mask :
  loc_label (boolean_mask (fun n : Z => (0 < n)%Z) (with_index [ 0%Z; 4%Z; 0%Z; 9%Z ]))
            3%nat
  = Ok 9%Z.
Proof. reflexivity. Qed.

Lemma idxmax_scan_spec (col : list (nat * float)) (best : option (nat * Q)) :
  match idxmax_scan best col with
  | Some (l, x) =>
      ((l, Fin x) ∈ col \/ best = Some (l, x)) /\
      (forall l' y, (l', Fin y) ∈ col -> y <= x) /\
      (forall bl bx, best = Some (bl, bx) -> bx <= x)
  | None => best = None /\ forall l' y, (l', Fin y) ∉ col
  end.
Proof.
  revert best. induction col as [| [l0 [| x0]] rest IH]; intros best.
  - cbn [idxmax_scan]. destruct best as [[bl bx] |].
    + split; [right; reflexivity | split].
      * intros l' y H. inversion H.
      * intros bl' bx' [= <- <-]. lra.
    + split; [reflexivity |]. intros l' y H. inversion H.
  - cbn [idxmax_scan]. specialize (IH best).
    destruct (idxmax_scan best rest) as [[l x] |].
    + destruct IH as ([Hin | Hb] & Hmax & Hbest).
      * split; [left; apply list_elem_of_further, Hin | split; [| exact Hbest]].
        intros l' y H. apply elem_of_cons in H as [[= _ ?] | H]; eauto.
      * split; [right; exact Hb | split; [| exact Hbest]].
        intros l' y H. apply elem_of_cons in H as [[= _ ?] | H]; eauto.
    + destruct IH as [Hb Hnone]. split; [exact Hb |].
      intros l' y H. apply elem_of_cons in H as [[= _ ?] | H].
      exact (Hnone l' y H).
  - cbn [idxmax_scan]. destruct best as [[bl bx] |].
    + destruct (Qle_bool x0 bx) eqn:E.
      * apply Qle_bool_true in E. specialize (IH (Some (bl, bx))).
        destruct (idxmax_scan (Some (bl, bx)) rest) as [[l x] |].
        -- destruct IH as (Hin & Hmax & Hbest). pose proof (Hbest bl bx eq_refl).
           split; [destruct Hin as [Hin | Hb];
                   [left; apply list_elem_of_further, Hin | right; exact Hb] |].
           split; [| exact Hbest].
           intros l' y H'. apply elem_of_cons in H' as [[= _ ->] | H']; [lra | eauto].
        -- destruct IH as [Hb _]. discriminate.
      * apply Qle_bool_false in E. specialize (IH (Some (l0, x0))).
        destruct (idxmax_scan (Some (l0, x0)) rest) as [[l x] |].
        -- destruct IH as (Hin & Hmax & Hbest). pose proof (Hbest l0 x0 eq_refl).
           split; [left; destruct Hin as [Hin | [= <- <-]];
                   [apply list_elem_of_further, Hin | apply list_elem_of_here] |].
           split.
           ++ intros l' y H'.
              apply elem_of_cons in H' as [[= _ ->] | H']; [lra | eauto].
           ++ intros bl' bx' [= <- <-]. lra.
        -- destruct IH as [Hb _]. discriminate.
    + specialize (IH (Some (l0, x0))).
      destruct (idxmax_scan (Some (l0, x0)) rest) as [[l x] |].
      * destruct IH as (Hin & Hmax & Hbest). pose proof (Hbest l0 x0 eq_refl).
        split; [left; destruct Hin as [Hin | [= <- <-]];
                [apply list_elem_of_further, Hin | apply list_elem_of_here] |].
        split; [| intros bl bx; discriminate].
        intros l' y H'.
        apply elem_of_cons in H' as [[= _ ->] | H']; [lra | eauto].
      * destruct IH as [Hb _]. discriminate.
Qed.

Lemma with_index_labels {A : Type} (df : list A) :
  (with_index df).*1 = seq 0 (length df).
Proof.
  unfold with_index. rewrite fmap_imap.
  transitivity (imap (fun (j : nat) (_ : A) => id j) df).
  - apply imap_ext. intros i r _. reflexivity.
  - rewrite (imap_seq_0 df id). apply list_fmap_id.
Qed.

Lemma elem_of_with_index {A : Type} (df : list A) (i : nat) (r : A) :
  (i, r) ∈ with_index df <-> df !! i = Some r.
Proof.
  unfold with_index. rewrite elem_of_lookup_imap. split.
  - intros (j & y & [= -> ->] & Hy). exact Hy.
  - intros H. exists i, r. auto.
Qed.

Lemma boolean_mask_labels {A : Type} (P : A -> Prop) `{forall r, Decision (P r)}
    (df : list A) :
  NoDup (boolean_mask P (with_index df)).*1.
Proof.
  apply (sublist_NoDup _ (with_index df).*1).
  - rewrite with_index_labels. apply NoDup_seq.
  - apply fmap_sublist, sublist_filter.
Qed.

Lemma loc_label_elem {A : Type} (idf : list (nat * A)) (l : nat) (r : A) :
  NoDup idf.*1 -> (l, r) ∈ idf -> loc_label idf l = Ok r.
Proof.
  induction idf as [| [l0 r0] rest IH]; intros Hnd Hin; [inversion Hin |].
  rewrite fmap_cons in Hnd. apply NoDup_cons in Hnd as [Hfresh Hnd].
  cbn [loc_label]. apply elem_of_cons in Hin as [[= -> ->] | Hin].
  - rewrite decide_True by reflexivity. reflexivity.
  - destruct (decide (l0 = l)) as [-> | Hne]; [| apply IH; assumption].
    exfalso. apply Hfresh. cbn.
    apply (list_elem_of_fmap_2 fst) in Hin. exact Hin.
Qed.

Lemma positive_sum_has_positive (xs : list float) :
  0 < series_sum xs -> exists x, Fin x ∈ xs /\ 0 < x.
Proof.
  induction xs as [| [| x] xs IH]; intros Hpos.
  - cbn in Hpos. lra.
  - rewrite series_sum_nan in Hpos. destruct (IH Hpos) as (y & Hy & Hy0).
    exists y. split; [apply list_elem_of_further, Hy | exact Hy0].
  - rewrite series_sum_fin in Hpos. destruct (Qlt_le_dec 0 x) as [Hx | Hx].
    + exists x. split; [apply list_elem_of_here | exact Hx].
    + destruct IH as (y & Hy & Hy0); [lra |].
      exists y. split; [apply list_elem_of_further, Hy | exact Hy0].
Qed.

(** Under non-negative holdings a row of positive value is held. *)
Lemma positive_value_held (held : gmap string Q) (df : list MergedAsset)
    (v : ValuedAsset) (x : Q) :
  (forall k q, held !! k = Some q -> 0 <= q) ->
  v ∈ valued_rows held df -> Value_USD v = Fin x -> 0 < x -> 0 < Holding v.
Proof.
  intros Hheld Hv Ex Hpos.
  destruct (decide (0 < Holding v)) as [H | H]; [exact H |].
  pose proof (unheld_value_zero held df v x Hheld Hv H Ex). exfalso. lra.
Qed.

(** X2: with holdings that are not negative, the valued table gives every
    asset a holding that is not negative; an asset that is not held (no
    positive holding) has value 0 or a missing value, and so an asset
    with a positive value is a held one. *)
Theorem unheld_rows_carry_no_value (df : list MergedAsset)
    (holdings_dict : option (gmap string Q)) (v : ValuedAsset) :
  (forall k q, effective_holdings holdings_dict !! k = Some q -> 0 <= q) ->
  v ∈ (calculate_portfolio_metrics df holdings_dict).1 ->
  0 <= Holding v /\
  (~ 0 < Holding v ->
   Value_USD v = NaN \/ exists x, Value_USD v = Fin x /\ x == 0) /\
  (forall x, Value_USD v = Fin x -> 0 < x -> 0 < Holding v).
Proof.
  intros Hheld. rewrite calculate_portfolio_metrics_unfold. cbn [fst].
  intros Hv. split; [| split].
  - unfold valued_rows in Hv. apply list_elem_of_fmap in Hv as (r & -> & _).
    cbn [Holding]. apply map_fillna0_nonneg, Hheld.
  - intros Hneg. destruct (Value_USD v) as [| x] eqn:Ex; [left; reflexivity |].
    right. exists x. split; [reflexivity |].
    eapply unheld_value_zero; eauto.
  - intros x Ex Hpos. eapply positive_value_held; eauto.
Qed.

Lemma unheld_rows_carry_no_value_witness :
  exists v : ValuedAsset,
    (calculate_portfolio_metrics example_merged (Some ∅)).1 !! 0%nat = Some v /\
    0 <= Holding v /\
    (~ 0 < Holding v ->
     Value_USD v = NaN \/ exists x, Value_USD v = Fin x /\ x == 0) /\
    (forall x, Value_USD v = Fin x -> 0 < x -> 0 < Holding v).
Proof.
  eexists. split; [vm_compute; reflexivity |].
  apply (unheld_rows_carry_no_value example_merged (Some ∅)).
  - intros k q H. cbn in H. rewrite lookup_empty in H. discriminate.
  - vm_compute. apply list_elem_of_here.
Defined.

Section LargestPosition.

Variable held : gmap string Q.
Variable df : list MergedAsset.
Hypothesis held_nonneg : forall k q, held !! k = Some q -> 0 <= q.

Let valued := valued_rows held df.
Let shown := boolean_mask (fun v : ValuedAsset => 0 < Holding v) (with_index valued).

Lemma shown_elem (i : nat) (v : ValuedAsset) :
  (i, v) ∈ shown <-> valued !! i = Some v /\ 0 < Holding v.
Proof.
  unfold shown, boolean_mask. rewrite list_elem_of_filter, elem_of_with_index.
  cbn. tauto.
Qed.

Lemma largest_of_shown (m : PortfolioMetrics) :
  total_value m = series_sum (Value_USD <$> valued) ->
  0 < total_value m ->
  exists (v : ValuedAsset) (x : Q),
    largest_position shown m = Ok (Some v) /\
    v ∈ valued /\ 0 < Holding v /\ Value_USD v = Fin x /\
    forall (w : ValuedAsset) (y : Q),
      w ∈ valued -> 0 < Holding w -> Value_USD w = Fin y -> y <= x.
Proof.
  intros Htotal Hpos. unfold largest_position.
  destruct (Qlt_le_dec 0 (total_value m)) as [_ | Hle]; [| exfalso; lra].
  rewrite Htotal in Hpos.
  destruct (positive_sum_has_positive _ Hpos) as (x0 & Hx0 & Hx0pos).
  apply list_elem_of_fmap in Hx0 as (v0 & Ev0 & Hv0).
  assert (Hheld0 : 0 < Holding v0).
  { eapply positive_value_held; eauto. }
  apply list_elem_of_lookup in Hv0 as [i0 Hi0].
  set (column := (fun p : nat * ValuedAsset => (p.1, Value_USD p.2)) <$> shown).
  assert (Hcol0 : (i0, Fin x0) ∈ column).
  { unfold column. apply list_elem_of_fmap. exists (i0, v0).
    split; [cbn; congruence | apply shown_elem; auto]. }
  unfold idxmax_skipna. pose proof (idxmax_scan_spec column None) as Hscan.
  destruct (idxmax_scan None column) as [[l x] |].
  - destruct Hscan as ([Hin | Hb] & Hmax & _); [| discriminate].
    apply list_elem_of_fmap in Hin as ([l' v] & [= -> Ev] & Hv).
    cbn [fst snd] in *. cbn [bind].
    rewrite (loc_label_elem shown l' v); [| apply boolean_mask_labels | exact Hv].
    cbn [bind]. apply shown_elem in Hv as [Hlv Hheld].
    exists v, x. split; [reflexivity |].
    split; [eapply list_elem_of_lookup_2, Hlv |].
    split; [exact Hheld | split; [congruence |]].
    intros w y Hw Hwheld Ey. apply list_elem_of_lookup in Hw as [j Hj].
    apply (Hmax j y). unfold column. apply list_elem_of_fmap. exists (j, w).
    split; [cbn; congruence | apply shown_elem; auto].
  - destruct Hscan as [_ Hnone]. exfalso. exact (Hnone i0 x0 Hcol0).
Qed.

End LargestPosition.

(** ** One run of the script *)

Lemma custom_holdings_nonneg (use_custom_portfolio : bool)
    (btc eth ada matic sol : Q) :
  0 <= btc -> 0 <= eth -> 0 <= ada -> 0 <= matic -> 0 <= sol ->
  forall k q,
    effective_holdings (custom_holdings use_custom_portfolio btc eth ada matic sol)
      !! k = Some q ->
    0 <= q.
Proof.
  intros Hb He Ha Hm Hs k q. destruct use_custom_portfolio; cbn.
  - intros H.
    repeat (apply lookup_insert_Some in H as [[_ <-] | [_ H]]; [assumption |]).
    rewrite lookup_empty in H. discriminate.
  - apply default_holdings_nonneg.
Qed.

Lemma largest_position_not_positive (shown : list (nat * ValuedAsset))
    (m : PortfolioMetrics) :
  ~ 0 < total_value m -> largest_position shown m = Ok None.
Proof.
  intros H. unfold largest_position.
  destruct (Qlt_le_dec 0 (total_value m)); [contradiction | reflexivity].
Qed.

Section Run.

Variable parse_float : string -> option Q.
Variable format_1f : Q -> string.
Variable format_num : Q -> string.
Variables auto_refresh use_custom_portfolio : bool.
Variables btc eth ada matic sol : Q.
Variable fetched : result (list (Price.t pyval)).
Variable esg_csv : result (list Esg.t).

Let run : result outcome :=
  app parse_float format_1f format_num auto_refresh use_custom_portfolio
      btc eth ada matic sol fetched esg_csv.
Let holdings := custom_holdings use_custom_portfolio btc eth ada matic sol.

(** What a rendered dashboard holds. *)
Lemma app_rendered_inv (d : Dashboard) :
  run = Ok (Rendered d) ->
  exists df : list MergedAsset,
    load_data parse_float fetched esg_csv = Some df /\ df <> [] /\
    df_with_portfolio d = valued_rows (effective_holdings holdings) df /\
    portfolio_metrics d = (calculate_portfolio_metrics df holdings).2 /\
    holdings_df d =
      boolean_mask (fun v : ValuedAsset => 0 < Holding v)
                   (with_index (df_with_portfolio d)) /\
    largest_position (holdings_df d) (portfolio_metrics d) = Ok (largest_holding d) /\
    get_esg_insights format_1f format_num (df_with_portfolio d) = Ok (insights d) /\
    top_esg d = nlargest 5 (fun v : ValuedAsset => ESG_Score v) (df_with_portfolio d).
Proof.
  unfold run, app. destruct auto_refresh; [discriminate |].
  destruct (load_data parse_float fetched esg_csv) as [[| r rest] |];
    [discriminate | | discriminate].
  fold holdings. rewrite calculate_portfolio_metrics_unfold. cbn zeta.
  match goal with
  | |- context [largest_position ?s ?m] =>
      destruct (largest_position s m) as [largest |] eqn:El
  end; cbn [bind]; [| discriminate].
  destruct (px_scatter (valued_rows (effective_holdings holdings) (r :: rest)))
    as [[] |] eqn:Es; cbn [bind]; [| discriminate].
  destruct (get_esg_insights format_1f format_num
              (valued_rows (effective_holdings holdings) (r :: rest)))
    as [ins |] eqn:Ei; cbn [bind]; [| discriminate].
  cbv iota. intros [= <-]. exists (r :: rest).
  cbn [df_with_portfolio portfolio_metrics holdings_df largest_holding
       insights top_esg].
  rewrite calculate_portfolio_metrics_unfold. cbn [snd].
  split; [reflexivity | split; [discriminate |]].
  repeat split; first [reflexivity | assumption].
Qed.

End Run.

Lemma nlargest_head_max {A : Type} (n : nat) (col : A -> Q) (df : list A) :
  df <> [] ->
  exists t : A,
    head (nlargest (S n) col df) = Some t /\ t ∈ df /\
    forall v, v ∈ df -> col v <= col t.
Proof.
  intros Hne. unfold nlargest.
  pose proof (sort_desc_sorted col df) as Hsorted.
  pose proof (sort_desc_perm col df) as Hperm.
  destruct (sort_desc col df) as [| t rest].
  - apply Permutation_nil_l in Hperm. congruence.
  - exists t. split; [reflexivity |]. split.
    + rewrite <- Hperm. apply list_elem_of_here.
    + intros v Hv. rewrite <- Hperm in Hv.
      apply StronglySorted_inv in Hsorted as [_ Hall].
      apply elem_of_cons in Hv as [-> | Hv]; [lra |].
      rewrite Forall_forall in Hall. apply Hall, Hv.
Qed.

Lemma get_esg_insights_head (format_1f format_num : Q -> string)
    (df : list ValuedAsset) :
  df <> [] ->
  exists (i : nat) (best : ValuedAsset) (s2 s3 s4 : string),
    first_max (fun v : ValuedAsset => ESG_Score v) df i best /\
    get_esg_insights format_1f format_num df =
    Ok [ "🏆 Highest ESG Score: " +:+ name best +:+ " ("
           +:+ format_1f (ESG_Score best) +:+ ")"; s2; s3; s4 ].
Proof.
  intros Hne.
  assert (Hcol : forall col : ValuedAsset -> Q, col <$> df <> []).
  { intros col H. apply fmap_nil_inv in H. contradiction. }
  destruct (idxmax_first _ (Hcol (fun v : ValuedAsset => ESG_Score v)))
    as (i & x & Hi & Hx).
  destruct (first_max_fmap _ _ _ _ Hx) as (best & Hbest & Hbest_max).
  destruct (idxmin_first _ (Hcol (fun v : ValuedAsset => ESG_Score v)))
    as (j & y & Hj & Hy).
  destruct (first_min_fmap _ _ _ _ Hy) as (worst & Hworst & _).
  destruct (idxmax_first _ (Hcol (fun v : ValuedAsset => esg_e v)))
    as (k & z & Hk & Hz).
  destruct (first_max_fmap _ _ _ _ Hz) as (env & Henv & _).
  exists i, best. do 3 eexists. split; [exact Hbest_max |].
  unfold get_esg_insights.
  rewrite Hi. cbn [bind]. rewrite Hbest. cbn [bind].
  rewrite Hj. cbn [bind]. rewrite Hworst. cbn [bind].
  rewrite Hk. cbn [bind]. rewrite Henv. cbn [bind].
  reflexivity.
Qed.

Lemma valued_rows_nonempty (held : gmap string Q) (df : list MergedAsset) :
  df <> [] -> valued_rows held df <> [].
Proof. intros Hne H. apply fmap_nil_inv in H. contradiction. Qed.

(** X11: a run with the sidebar's non-negative quantities.  When every
    price of the loaded table is a number that is not negative, the run
    ends in no exception: it asks for a rerun when auto-refresh is on;
    otherwise it shows the error banner exactly when loading failed or the
    merged table is empty, and the dashboard in every other case.  When
    auto-refresh is off and some asset of the loaded table has a missing
    price, the run ends in the [ValueError] of the scatter plot, whose
    marker sizes are the values. *)
Theorem app_never_raises (parse_float : string -> option Q)
    (format_1f format_num : Q -> string)
    (auto_refresh use_custom_portfolio : bool) (btc eth ada matic sol : Q)
    (fetched : result (list (Price.t pyval))) (esg_csv : result (list Esg.t)) :
  0 <= btc -> 0 <= eth -> 0 <= ada -> 0 <= matic -> 0 <= sol ->
  ((forall (df : list MergedAsset) (r : MergedAsset),
      load_data parse_float fetched esg_csv = Some df -> r ∈ df ->
      exists p, last_price r = Fin p /\ 0 <= p) ->
   exists o : outcome,
     app parse_float format_1f format_num auto_refresh use_custom_portfolio
         btc eth ada matic sol fetched esg_csv = Ok o /\
     match o with
     | Rerun => auto_refresh = true
     | ErrorBanner =>
         auto_refresh = false /\
         (load_data parse_float fetched esg_csv = None \/
          load_data parse_float fetched esg_csv = Some [])
     | Rendered d =>
         auto_refresh = false /\
         exists df, load_data parse_float fetched esg_csv = Some df /\ df <> []
     | RenderedThenRerun _ => False
     end) /\
  (forall (df : list MergedAsset) (r : MergedAsset),
     auto_refresh = false ->
     load_data parse_float fetched esg_csv = Some df -> r ∈ df ->
     last_price r = NaN ->
     fails_with "ValueError"
       (app parse_float format_1f format_num auto_refresh use_custom_portfolio
            btc eth ada matic sol fetched esg_csv)).
Proof.
  intros Hb He Ha Hm Hs.
  pose proof (custom_holdings_nonneg use_custom_portfolio _ _ _ _ _ Hb He Ha Hm Hs)
    as Hheld.
  assert (Hlargest : forall df : list MergedAsset,
             let holdings := custom_holdings use_custom_portfolio btc eth ada matic sol in
             let valued := valued_rows (effective_holdings holdings) df in
             exists largest,
               largest_position
                 (boolean_mask (fun v : ValuedAsset => 0 < Holding v)
                               (with_index valued))
                 (calculate_portfolio_metrics df holdings).2
               = Ok largest).
  { intros df holdings valued.
    rewrite calculate_portfolio_metrics_unfold. cbn [snd].
    match goal with
    | |- context [largest_position _ ?m'] => set (m := m')
    end.
    destruct (decide (0 < total_value m)) as [Hpos | Hneg].
    - destruct (largest_of_shown (effective_holdings holdings) df Hheld
                  m eq_refl Hpos) as (v & x & E & _).
      eauto.
    - eexists. apply largest_position_not_positive. exact Hneg. }
  split.
  - intros Hprices. unfold app.
    destruct auto_refresh; [exists Rerun; split; reflexivity |].
    destruct (load_data parse_float fetched esg_csv) as [[| r rest] |].
    + exists ErrorBanner. split; [reflexivity | auto].
    + destruct (Hlargest (r :: rest)) as [largest El]. revert El.
      rewrite calculate_portfolio_metrics_unfold. cbn zeta. cbn [snd].
      intros ->. cbn [bind].
      set (valued := valued_rows _ (r :: rest)).
      assert (Es : px_scatter valued = Ok tt).
      { unfold px_scatter.
        destruct valued as [| v vs] eqn:Ev; [reflexivity |]. rewrite <- Ev.
        assert (Hall : forallb valid_marker_size (Value_USD <$> valued) = true).
        { apply forallb_forall. intros x Hx. apply list_elem_of_In in Hx.
          apply list_elem_of_fmap in Hx as (w & -> & Hw).
          unfold valued, valued_rows in Hw.
          apply list_elem_of_fmap in Hw as (r' & -> & Hr'). cbn [Value_USD].
          destruct (Hprices (r :: rest) r' eq_refl Hr') as (p & -> & Hp).
          rewrite fmul_fin. cbn [valid_marker_size]. apply Qle_bool_iff.
          apply Qmult_le_0_compat; [| exact Hp].
          apply map_fillna0_nonneg, Hheld. }
        rewrite Hall. reflexivity. }
      rewrite Es. cbn [bind].
      destruct (get_esg_insights_shape format_1f format_num valued)
        as (s1 & s2 & s4 & ->); [apply valued_rows_nonempty; discriminate |].
      cbn [bind]. eexists. split; [reflexivity |]. cbn.
      split; [reflexivity |]. exists (r :: rest). split; [reflexivity | discriminate].
    + exists ErrorBanner. split; [reflexivity | auto].
  - intros df r -> Hload Hr Hnan. unfold app. rewrite Hload.
    destruct df as [| r0 rest]; [inversion Hr |].
    destruct (Hlargest (r0 :: rest)) as [largest El]. revert El.
    rewrite calculate_portfolio_metrics_unfold. cbn zeta. cbn [snd].
    intros ->. cbn [bind].
    set (valued := valued_rows _ (r0 :: rest)).
    assert (Es : fails_with "ValueError" (px_scatter valued)).
    { unfold px_scatter.
      destruct valued as [| v vs] eqn:Ev;
        [apply (valued_rows_nonempty _ (r0 :: rest)) in Ev; [easy | discriminate] |].
      rewrite <- Ev.
      destruct (forallb valid_marker_size (Value_USD <$> valued)) eqn:Hall.
      - exfalso. rewrite forallb_forall in Hall.
        assert (Hin : NaN ∈ Value_USD <$> valued).
        { unfold valued, valued_rows. rewrite <- list_fmap_compose.
          apply list_elem_of_fmap. exists r. split; [| exact Hr].
          cbn [compose Value_USD]. rewrite Hnan, fmul_nan_r. reflexivity. }
        apply list_elem_of_In, Hall in Hin. discriminate.
      - eexists. split; reflexivity. }
    destruct Es as (e & -> & Hcls). cbn [bind]. exists e. split; [reflexivity | exact Hcls].
Qed.

Lemma app_never_raises_witness :
  (exists o : outcome,
     app parse_decimal format_tenths format_tenths false true
         (1 # 2) (12 # 10) 100 500 10 (Ok example_prices) (Ok example_esg) = Ok o /\
     match o with
     | Rerun => false = true
     | ErrorBanner =>
         false = false /\
         (load_data parse_decimal (Ok example_prices) (Ok example_esg) = None \/
          load_data parse_decimal (Ok example_prices) (Ok example_esg) = Some [])
     | Rendered d =>
         false = false /\
         exists df, load_data parse_decimal (Ok example_prices) (Ok example_esg)
                    = Some df /\ df <> []
     | RenderedThenRerun _ => False
     end).
Proof.
  apply (app_never_raises parse_decimal format_tenths format_tenths false true
           (1 # 2) (12 # 10) 100 500 10 (Ok example_prices) (Ok example_esg));
    try discriminate.
  intros df r [= <-] Hr. vm_compute in Hr.
  repeat (apply elem_of_cons in Hr as [-> | Hr];
          [eexists; split; [reflexivity | discriminate] |]).
  inversion Hr.
Defined.

(** A feed with an unusable price for one listed asset: the run ends in
    the scatter plot's [ValueError], before any insight is computed. *)
Example app_missing_price_raises :
  fails_with "ValueError"
    (app parse_decimal format_tenths format_tenths false false 0 0 0 0 0
         (Ok [ Price.mk "BTCUSDT" (PyStr "n/a"); Price.mk "ETHUSDT" (PyNum 3000) ])
         (Ok example_esg)).
Proof. eexists. split; vm_compute; reflexivity. Qed.

(** X12: the sleep-and-rerun at the end of the script is never reached: with
    auto-refresh on, every run asks for a rerun before any data is loaded,
    whatever the feed; and no run ends with the dashboard followed by a
    rerun. *)
Theorem app_auto_refresh_never_renders (parse_float : string -> option Q)
    (format_1f format_num : Q -> string)
    (auto_refresh use_custom_portfolio : bool) (btc eth ada matic sol : Q)
    (fetched : result (list (Price.t pyval))) (esg_csv : result (list Esg.t)) :
  app parse_float format_1f format_num true use_custom_portfolio
      btc eth ada matic sol fetched esg_csv = Ok Rerun /\
  forall d : Dashboard,
    app parse_float format_1f format_num auto_refresh use_custom_portfolio
        btc eth ada matic sol fetched esg_csv <> Ok (RenderedThenRerun d).
Proof.
  split; [reflexivity |]. intros d. unfold app.
  destruct auto_refresh; [discriminate |].
  destruct (load_data parse_float fetched esg_csv) as [[| r rest] |];
    [discriminate | | discriminate].
  rewrite calculate_portfolio_metrics_unfold. cbn zeta.
  match goal with
  | |- context [largest_position ?s ?m] => destruct (largest_position s m)
  end; cbn [bind]; [| discriminate].
  match goal with
  | |- context [px_scatter ?l] => destruct (px_scatter l)
  end; cbn [bind]; [| discriminate].
  match goal with
  | |- context [get_esg_insights ?f ?g ?l] => destruct (get_esg_insights f g l)
  end; cbn [bind]; discriminate.
Qed.

Lemma boolean_mask_rows_gen {A : Type} (P : A -> Prop) `{forall r, Decision (P r)}
    (f : nat -> nat) (l : list A) :
  (filter (fun p : nat * A => P p.2) (imap (fun i r => (f i, r)) l)).*2
  = filter P l.
Proof.
  revert f. induction l as [| x l IH]; intros f; [reflexivity |].
  rewrite imap_cons, !filter_cons. cbn [snd].
  change (imap ((fun i r => (f i, r)) ∘ S) l)
    with (imap (fun i r => ((f ∘ S) i, r)) l).
  destruct (decide (P x)); [rewrite fmap_cons; cbn [snd]; f_equal |]; apply IH.
Qed.

Lemma boolean_mask_rows {A : Type} (P : A -> Prop) `{forall r, Decision (P r)}
    (l : list A) :
  (boolean_mask P (with_index l)).*2 = filter P l.
Proof. apply (boolean_mask_rows_gen P (fun i => i)). Qed.

(** X13: what a rendered dashboard shows is consistent: the holdings view is
    the valued table restricted to positive holdings, in order, so the
    "Assets in Portfolio" figure [num_holdings] is its number of rows;
    the valued table has one row per merged asset; and there are exactly
    four insights. *)
Theorem app_dashboard_consistent (parse_float : string -> option Q)
    (format_1f format_num : Q -> string)
    (auto_refresh use_custom_portfolio : bool) (btc eth ada matic sol : Q)
    (fetched : result (list (Price.t pyval))) (esg_csv : result (list Esg.t))
    (d : Dashboard) :
  app parse_float format_1f format_num auto_refresh use_custom_portfolio
      btc eth ada matic sol fetched esg_csv = Ok (Rendered d) ->
  (holdings_df d).*2
    = filter (fun v : ValuedAsset => 0 < Holding v) (df_with_portfolio d) /\
  length (holdings_df d) = num_holdings (portfolio_metrics d) /\
  load_data parse_float fetched esg_csv
    = Some ((fun v : ValuedAsset => valued_base v) <$> df_with_portfolio d) /\
  length (insights d) = 4%nat.
Proof.
  intros Hrun.
  apply app_rendered_inv in Hrun
    as (df & Hload & Hne & Hdfp & Hm & Hshown & _ & Hins & _).
  assert (Hrows : (holdings_df d).*2
                  = filter (fun v : ValuedAsset => 0 < Holding v) (df_with_portfolio d)).
  { rewrite Hshown. apply boolean_mask_rows. }
  split; [exact Hrows | split; [| split]].
  - rewrite <- (length_fmap snd), Hrows, Hm, calculate_portfolio_metrics_unfold.
    cbn [snd num_holdings]. rewrite Hdfp. reflexivity.
  - rewrite Hload, Hdfp. unfold valued_rows. rewrite <- list_fmap_compose.
    f_equal. symmetry. apply list_fmap_id.
  - destruct (get_esg_insights_shape format_1f format_num (df_with_portfolio d))
      as (s1 & s2 & s4 & E).
    { rewrite Hdfp. apply valued_rows_nonempty, Hne. }
    rewrite E in Hins. injection Hins as <-. reflexivity.
Qed.

Lemma app_dashboard_consistent_witness :
  exists d : Dashboard,
    app parse_decimal format_tenths format_tenths false false
        0 0 0 0 0 (Ok example_prices) (Ok example_esg) = Ok (Rendered d) /\
    (holdings_df d).*2
      = filter (fun v : ValuedAsset => 0 < Holding v) (df_with_portfolio d) /\
    length (holdings_df d) = num_holdings (portfolio_metrics d) /\
    load_data parse_decimal (Ok example_prices) (Ok example_esg)
      = Some ((fun v : ValuedAsset => valued_base v) <$> df_with_portfolio d) /\
    length (insights d) = 4%nat.
Proof.
  eexists. split; [vm_compute; reflexivity |].
  apply (app_dashboard_consistent parse_decimal format_tenths format_tenths
           false false 0 0 0 0 0 (Ok example_prices) (Ok example_esg)).
  vm_compute. reflexivity.
Defined.

(** X14: the leaderboard of a rendered dashboard: up to five assets in
    descending order of ESG score; it and the assets it leaves out make up
    the valued table, and no asset left out scores higher than a listed
    one.  Its first entry has the score of the asset the first insight
    names as highest. *)
Theorem app_leaderboard (parse_float : string -> option Q)
    (format_1f format_num : Q -> string)
    (auto_refresh use_custom_portfolio : bool) (btc eth ada matic sol : Q)
    (fetched : result (list (Price.t pyval))) (esg_csv : result (list Esg.t))
    (d : Dashboard) :
  app parse_float format_1f format_num auto_refresh use_custom_portfolio
      btc eth ada matic sol fetched esg_csv = Ok (Rendered d) ->
  length (top_esg d) = min 5 (length (df_with_portfolio d)) /\
  StronglySorted (fun a b : ValuedAsset => ESG_Score b <= ESG_Score a) (top_esg d) /\
  (exists rest : list ValuedAsset,
     top_esg d ++ rest ≡ₚ df_with_portfolio d /\
     forall a b : ValuedAsset,
       a ∈ top_esg d -> b ∈ rest -> ESG_Score b <= ESG_Score a) /\
  exists (top : ValuedAsset) (i : nat) (best : ValuedAsset) (s2 s3 s4 : string),
    head (top_esg d) = Some top /\
    first_max (fun v : ValuedAsset => ESG_Score v) (df_with_portfolio d) i best /\
    ESG_Score top == ESG_Score best /\
    insights d =
    [ "🏆 Highest ESG Score: " +:+ name best +:+ " ("
        +:+ format_1f (ESG_Score best) +:+ ")"; s2; s3; s4 ].
Proof.
  intros Hrun.
  apply app_rendered_inv in Hrun
    as (df & _ & Hne & Hdfp & _ & _ & _ & Hins & Htop).
  assert (Hne' : df_with_portfolio d <> []).
  { rewrite Hdfp. apply valued_rows_nonempty, Hne. }
  rewrite Htop.
  destruct (nlargest_selects 5 (fun v : ValuedAsset => ESG_Score v)
              (df_with_portfolio d)) as (Hlen & Hsorted & Hrest).
  split; [exact Hlen | split; [exact Hsorted | split; [exact Hrest |]]].
  destruct (nlargest_head_max 4 (fun v : ValuedAsset => ESG_Score v)
              (df_with_portfolio d) Hne') as (top & Hhead & Hin & Hmax).
  destruct (get_esg_insights_head format_1f format_num (df_with_portfolio d) Hne')
    as (i & best & s2 & s3 & s4 & Hbest & E).
  rewrite E in Hins. injection Hins as Hins.
  exists top, i, best, s2, s3, s4.
  split; [exact Hhead | split; [exact Hbest | split; [| symmetry; exact Hins]]].
  destruct Hbest as (Hat & Hbmax & _).
  apply Qle_antisym; [apply Hbmax, Hin |].
  apply Hmax. eapply list_elem_of_lookup_2, Hat.
Qed.

Lemma app_leaderboard_witness :
  exists d : Dashboard,
    app parse_decimal format_tenths format_tenths false false
        0 0 0 0 0 (Ok example_prices) (Ok example_esg) = Ok (Rendered d) /\
    length (top_esg d) = min 5 (length (df_with_portfolio d)) /\
    StronglySorted (fun a b : ValuedAsset => ESG_Score b <= ESG_Score a) (top_esg d).
Proof.
  eexists. split; [vm_compute; reflexivity |].
  pose proof (app_leaderboard parse_decimal format_tenths format_tenths
                false false 0 0 0 0 0 (Ok example_prices) (Ok example_esg)) as H.
  edestruct H as (Hlen & Hsorted & _); [vm_compute; reflexivity |].
  split; [exact Hlen | exact Hsorted].
Defined.

(** X15: the "Largest Position" of a rendered dashboard, under the sidebar's
    non-negative quantities: with a positive total value the lookup
    succeeds and gives a held asset whose value is a number no smaller than
    the value of any other held asset; otherwise nothing is looked up. *)
Theorem app_largest_position (parse_float : string -> option Q)
    (format_1f format_num : Q -> string)
    (auto_refresh use_custom_portfolio : bool) (btc eth ada matic sol : Q)
    (fetched : result (list (Price.t pyval))) (esg_csv : result (list Esg.t))
    (d : Dashboard) :
  0 <= btc -> 0 <= eth -> 0 <= ada -> 0 <= matic -> 0 <= sol ->
  app parse_float format_1f format_num auto_refresh use_custom_portfolio
      btc eth ada matic sol fetched esg_csv = Ok (Rendered d) ->
  (0 < total_value (portfolio_metrics d) ->
   exists (v : ValuedAsset) (x : Q),
     largest_holding d = Some v /\
     v ∈ df_with_portfolio d /\ 0 < Holding v /\ Value_USD v = Fin x /\
     forall (w : ValuedAsset) (y : Q),
       w ∈ df_with_portfolio d -> 0 < Holding w -> Value_USD w = Fin y -> y <= x) /\
  (~ 0 < total_value (portfolio_metrics d) -> largest_holding d = None).
Proof.
  intros Hb He Ha Hm Hs Hrun.
  apply app_rendered_inv in Hrun
    as (df & _ & _ & Hdfp & Hmetrics & Hshown & Hlargest & _ & _).
  split.
  - intros Hpos.
    destruct (largest_of_shown _ df
                (custom_holdings_nonneg use_custom_portfolio _ _ _ _ _ Hb He Ha Hm Hs)
                (portfolio_metrics d)) as (v & x & E & Hfacts).
    { rewrite Hmetrics, calculate_portfolio_metrics_unfold. reflexivity. }
    { exact Hpos. }
    rewrite Hshown, Hdfp in Hlargest. rewrite E in Hlargest.
    injection Hlargest as Hl. exists v, x. rewrite Hdfp.
    split; [symmetry; exact Hl | exact Hfacts].
  - intros Hneg.
    rewrite (largest_position_not_positive _ _ Hneg) in Hlargest.
    injection Hlargest as Hl. symmetry. exact Hl.
Qed.

Lemma app_largest_position_witness :
  exists d : Dashboard,
    app parse_decimal format_tenths format_tenths false true
        1 1 0 0 0 (Ok example_prices) (Ok example_esg) = Ok (Rendered d) /\
    exists (v : ValuedAsset) (x : Q),
      largest_holding d = Some v /\
      v ∈ df_with_portfolio d /\ 0 < Holding v /\ Value_USD v = Fin x /\
      forall (w : ValuedAsset) (y : Q),
        w ∈ df_with_portfolio d -> 0 < Holding w -> Value_USD w = Fin y -> y <= x.
Proof.
  eexists. split; [vm_compute; reflexivity |].
  apply (app_largest_position parse_decimal format_tenths format_tenths false true
           1 1 0 0 0 (Ok example_prices) (Ok example_esg));
    first [discriminate | vm_compute; reflexivity].
Defined.
